(** * dmem: cgroup memory statistics of Docker containers

    A shallow embedding of the cgroup core of [dmem.py]: the version
    detector, the two file readers, the v1 and v2 collectors and the loop
    of [main] that builds one row per container.

    Conventions of the embedding.
    - Python integers are unbounded: they are [Z].
    - Text is [string]; a character is a code point below 256, so the
      white space of [str.strip] and [str.split] is the set that
      [str.isspace] accepts in that range.
    - The filesystem is the environment of the program: a record of the
      three observations the code makes of it ([os.path.exists], [open]
      followed by reading, [glob.glob]).
    - An exception is a value of [exn]; a computation that may raise
      returns a [result]; [try ... except Exception] is a match on it.
    - Calls to [logging] only write to the log and are left out.
    - Of [format_bytes] the embedding keeps when it returns and when it
      raises; the text it builds with floating point is a parameter.
    - [int] is modelled without the interpreter's configurable limit on
      the length of a numeral ([sys.set_int_max_str_digits]). *)

From Stdlib Require Import ZArith NArith Ascii String List Bool Lia.
From stdpp Require Import base option list strings gmap fin_maps.

Local Open Scope string_scope.
Local Open Scope Z_scope.

(** ** Exceptions *)

Inductive exn : Type :=
  | OSError            (* missing file, permission denied, is a directory *)
  | UnicodeDecodeError
  | ValueError
  | OverflowError.

Inductive result (A : Type) : Type :=
  | Ok (a : A)
  | Raise (e : exn).

Arguments Ok {A} a.
Arguments Raise {A} e.

#[global] Instance result_ret : MRet result := fun A a => Ok a.

#[global] Instance result_bind : MBind result := fun A B k m =>
  match m with
  | Ok a => k a
  | Raise e => Raise e
  end.

(** ** Text: [str.strip], [str.split], iteration over the lines of a file *)

Module Text.

Definition code (c : ascii) : Z := Z.of_N (N_of_ascii c).

(** [str.isspace] on one character below 256: TAB, LF, VT, FF, CR,
    FS, GS, RS, US, SPACE, NEL (133) and NBSP (160). *)
Definition isspace (c : ascii) : bool :=
  let n := code c in
  ((9 <=? n) && (n <=? 13)) || ((28 <=? n) && (n <=? 32))
  || (n =? 133) || (n =? 160).

Fixpoint lstrip_by (sp : ascii → bool) (s : string) : string :=
  match s with
  | EmptyString => EmptyString
  | String c r => if sp c then lstrip_by sp r else s
  end.

Fixpoint rstrip_by (sp : ascii → bool) (s : string) : string :=
  match s with
  | EmptyString => EmptyString
  | String c r =>
      match rstrip_by sp r with
      | EmptyString => if sp c then EmptyString else String c EmptyString
      | r' => String c r'
      end
  end.

Definition strip_by (sp : ascii → bool) (s : string) : string :=
  rstrip_by sp (lstrip_by sp s).

(** [s.strip()] *)
Definition strip (s : string) : string := strip_by isspace s.

Definition starts_with_space (s : string) : bool :=
  match s with
  | EmptyString => true
  | String c _ => isspace c
  end.

(** [s.split()]: the maximal runs of characters that are not white
    space, in order. *)
Fixpoint split (s : string) : list string :=
  match s with
  | EmptyString => []
  | String c r =>
      if isspace c then split r
      else if starts_with_space r then String c EmptyString :: split r
      else match split r with
           | t :: ts => String c t :: ts
           | [] => [String c EmptyString]
           end
  end.

Definition LF : ascii := ascii_of_nat 10.

(** [for line in f]: the text is cut after each line feed; a line keeps
    its line feed, and what follows the last one is a line when it is
    not empty. *)
Fixpoint lines (s : string) : list string :=
  match s with
  | EmptyString => []
  | String c r =>
      if Ascii.eqb c LF then String c EmptyString :: lines r
      else match lines r with
           | l :: ls => String c l :: ls
           | [] => [String c EmptyString]
           end
  end.

(** [s[:n]] for [0 <= n] *)
Definition prefix (n : nat) (s : string) : string := substring 0 n s.

End Text.

(** ** [int(s)] in base 10 *)

Module PyInt.

(** The white space [int] skips at both ends: the C locale's, and the
    two characters from 128 on that [str.isspace] accepts, which [int]
    first rewrites to a space. FS, GS, RS and US are not skipped. *)
Definition isspace (c : ascii) : bool :=
  let n := Text.code c in
  ((9 <=? n) && (n <=? 13)) || (n =? 32) || (n =? 133) || (n =? 160).

Definition digit_value (c : ascii) : option Z :=
  let n := Text.code c in
  if (48 <=? n) && (n <=? 57) then Some (n - 48) else None.

Definition underscore : ascii := "_"%char.

(** The digits, where one underscore may stand between two digits.
    [prev] tells that the character before was an underscore. *)
Fixpoint digits (s : string) (prev : bool) (acc : Z) : option Z :=
  match s with
  | EmptyString => if prev then None else Some acc
  | String c r =>
      if Ascii.eqb c underscore then
        if prev then None else digits r true acc
      else
        match digit_value c with
        | Some d => digits r false (acc * 10 + d)
        | None => None
        end
  end.

Definition magnitude (s : string) : option Z :=
  match s with
  | EmptyString => None
  | String c _ => if Ascii.eqb c underscore then None else digits s false 0
  end.

(** The optional sign: whether it is a minus, and what follows it. *)
Definition sign (body : string) : bool * string :=
  match body with
  | String c r =>
      if Ascii.eqb c "+" then (false, r)
      else if Ascii.eqb c "-" then (true, r)
      else (false, body)
  | EmptyString => (false, body)
  end.

Definition int (s : string) : result Z :=
  let '(negative, rest) := sign (Text.strip_by isspace s) in
  match magnitude rest with
  | Some n => Ok (if negative then - n else n)
  | None => Raise ValueError
  end.

End PyInt.

(** ** The filesystem, as the program observes it *)

Record filesystem : Type := {
  (** [os.path.exists(path)] *)
  path_exists : string → bool;
  (** [open(path, "r")] and the text read from it, or the exception that
      opening or reading raises. An error in the middle of an iteration
      over the lines leaves the program where the end of the file would,
      with a shorter text. *)
  read_text : string → result string;
  (** [glob.glob(pattern, recursive=True)], in the order of the traversal *)
  glob : string → list string;
}.

Fixpoint ends_with_slash (s : string) : bool :=
  match s with
  | EmptyString => false
  | String c EmptyString => Ascii.eqb c "/"
  | String _ r => ends_with_slash r
  end.

(** [os.path.join(a, b)] on POSIX *)
Definition path_join (a b : string) : string :=
  if String.eqb (Text.prefix 1 b) "/" then b
  else if String.eqb a "" || ends_with_slash a then a +:+ b
  else a +:+ "/" +:+ b.

(** ** CgroupVersionDetector *)

Definition get_cgroup_version (fs : filesystem) : Z :=
  if path_exists fs "/sys/fs/cgroup/cgroup.controllers" then 2 else 1.

(** ** CgroupFileReader *)

Definition read_cgroup_file (fs : filesystem) (path : string) : option Z :=
  match
    content ← read_text fs path;
    let content := Text.strip content in
    if String.eqb content "max" then mret None
    else value ← PyInt.int content; mret (Some value)
  with
  | Ok r => r
  | Raise _ => None        (* except Exception: return None *)
  end.

(** The body of the loop of [read_cgroup_stat_file] on one line: the
    dictionary after it, and whether it raised. *)
Definition stat_line (line : string) (stats : gmap string Z)
  : gmap string Z * result unit :=
  match Text.split (Text.strip line) with
  | [key; value] =>
      match PyInt.int value with
      | Ok v => (<[key := v]> stats, Ok tt)
      | Raise e => (stats, Raise e)
      end
  | _ => (stats, Ok tt)
  end.

Fixpoint stat_loop (lines : list string) (stats : gmap string Z)
  : gmap string Z * result unit :=
  match lines with
  | [] => (stats, Ok tt)
  | line :: rest =>
      match stat_line line stats with
      | (stats', Ok _) => stat_loop rest stats'
      | (stats', Raise e) => (stats', Raise e)
      end
  end.

(** The handler only logs: whatever the [try] block did to [stats] before
    an exception stays in it. *)
Definition read_cgroup_stat_file (fs : filesystem) (path : string)
  : gmap string Z :=
  let stats := ∅ in
  match read_text fs path with
  | Ok text => fst (stat_loop (Text.lines text) stats)
  | Raise _ => stats
  end.

(** ** MemoryStats: the dictionary the collectors return *)

Module Stats.
Record t : Type := mk {
  ram : option Z;
  swap : option Z;
  limit : option Z;
  swaplimit : option Z;
  anon : option Z;
  file : option Z;
  shmem : option Z;
  rss : option Z;
}.

(** [{k: None for k in [...]}] *)
Definition absent : t := mk None None None None None None None None.

Definition fields (s : t) : list (option Z) :=
  [ram s; swap s; limit s; swaplimit s; anon s; file s; shmem s; rss s].

(** Which fields are present. *)
Definition shape (s : t) : list bool :=
  (λ f : option Z, bool_decide (is_Some f)) <$> fields s.
End Stats.

(** ** MemoryStatsCollector, cgroup v1 *)

Definition get_memory_stats_v1 (fs : filesystem) (container_id : string)
  : Stats.t :=
  let base_path := "/sys/fs/cgroup/memory/docker/" +:+ container_id in
  let mem :=
    read_cgroup_file fs (path_join base_path "memory.usage_in_bytes") in
  let memsw :=
    read_cgroup_file fs (path_join base_path "memory.memsw.usage_in_bytes") in
  let mem_limit :=
    read_cgroup_file fs (path_join base_path "memory.limit_in_bytes") in
  let memsw_limit :=
    read_cgroup_file fs (path_join base_path "memory.memsw.limit_in_bytes") in
  let swap :=
    match mem, memsw with
    | Some mem, Some memsw => Some (memsw - mem)
    | _, _ => None
    end in
  let swap_limit :=
    match memsw_limit, mem_limit with
    | Some memsw_limit, Some mem_limit => Some (memsw_limit - mem_limit)
    | _, _ => None
    end in
  let stat := read_cgroup_stat_file fs (path_join base_path "memory.stat") in
  {| Stats.ram := mem;
     Stats.swap := swap;
     Stats.limit := mem_limit;
     Stats.swaplimit := swap_limit;
     Stats.anon := stat !! "anon";
     Stats.file := stat !! "file";
     Stats.shmem := stat !! "shmem";
     Stats.rss := stat !! "rss" |}.

(** ** CgroupPathResolver and MemoryStatsCollector, cgroup v2 *)

Definition find_cgroup_path_v2 (fs : filesystem) (container_id : string)
  : option string :=
  let pattern := "/sys/fs/cgroup/**/docker-" +:+ container_id +:+ ".scope" in
  match glob fs pattern with
  | m :: _ => Some m
  | [] => None
  end.

Definition get_memory_stats_v2 (fs : filesystem) (container_id : string)
  : Stats.t :=
  match find_cgroup_path_v2 fs container_id with
  | None | Some EmptyString =>        (* if not base_path *)
      Stats.absent
  | Some base_path =>
      let mem := read_cgroup_file fs (path_join base_path "memory.current") in
      let swap_path := path_join base_path "memory.swap.current" in
      let swap :=
        if path_exists fs swap_path then read_cgroup_file fs swap_path
        else None in
      let mem_limit := read_cgroup_file fs (path_join base_path "memory.max") in
      let swap_limit_path := path_join base_path "memory.swap.max" in
      let swap_limit :=
        if path_exists fs swap_limit_path
        then read_cgroup_file fs swap_limit_path
        else None in
      let stat :=
        read_cgroup_stat_file fs (path_join base_path "memory.stat") in
      {| Stats.ram := mem;
         Stats.swap := swap;
         Stats.limit := mem_limit;
         Stats.swaplimit := swap_limit;
         Stats.anon := stat !! "anon";
         Stats.file := stat !! "file";
         Stats.shmem := stat !! "shmem";
         Stats.rss := stat !! "rss" |}
  end.

(** ** The rows of [main] *)

(** A container, as [get_all_containers] lists it. *)
Record container : Type := {
  c_id : string;
  c_name : string;
}.

Module TableRow.
(** The columns [row.update] adds under [--details]. *)
Record details : Type := mk_details {
  limit : string;
  swaplimit : string;
  anon : string;
  file : string;
  shmem : string;
  rss : string;
}.

Record t : Type := mk {
  container : string;
  id : string;
  ram : string;
  ram_raw : option Z;
  swap : string;
  swap_raw : option Z;
  more : option details;
}.
End TableRow.

(** Where the conversion of an integer to a float overflows: the
    magnitudes that round beyond the largest float. *)
Definition float_bound : Z := 2 ^ 1024 - 2 ^ 970.

(** [f"{value:.1f}"] on an integer converts it to a float and raises
    [OverflowError] when the conversion overflows. *)
Definition float_overflows (value : Z) : bool :=
  float_bound <=? Z.abs value.

(** [value / 1024] on an integer is a true division and raises
    [OverflowError] when the quotient overflows. *)
Definition division_overflows (value : Z) : bool :=
  float_bound * 1024 <=? value.

Section Rows.

(** The text [format_bytes] builds for an integer when nothing overflows:
    the scaling by 1024 in floating point and the [.1f] rendering are not
    modelled, the text is a parameter. *)
Variable render : Z → string.

Definition format_bytes (bytes_num : option Z) : result string :=
  match bytes_num with
  | None => Ok "N/A"
  | Some value =>
      if value <? 1024 then
        (* the first unit: the integer itself is rendered *)
        if float_overflows value then Raise OverflowError
        else Ok (render value)
      else
        (* the next units: the integer is divided first, and what follows
           works on floats *)
        if division_overflows value then Raise OverflowError
        else Ok (render value)
  end.

(** The text of a field when [format_bytes] returns. *)
Definition bytes_text (bytes_num : option Z) : string :=
  match bytes_num with
  | None => "N/A"
  | Some value => render value
  end.

(** The dispatch of [main] on the detected version. *)
Definition memory_stats (fs : filesystem) (cgroup_version : Z)
    (container_id : string) : Stats.t :=
  if cgroup_version =? 1 then get_memory_stats_v1 fs container_id
  else get_memory_stats_v2 fs container_id.

(** The body of the loop over the containers. *)
Definition make_row (fs : filesystem) (cgroup_version : Z) (details : bool)
    (c : container) : result TableRow.t :=
  let cid := Text.prefix 12 (c_id c) in
  let name := c_name c in
  let stats := memory_stats fs cgroup_version (c_id c) in
  ram ← format_bytes (Stats.ram stats);
  swap ← format_bytes (Stats.swap stats);
  more ←
    (if details then
       limit ← format_bytes (Stats.limit stats);
       swaplimit ← format_bytes (Stats.swaplimit stats);
       anon ← format_bytes (Stats.anon stats);
       file ← format_bytes (Stats.file stats);
       shmem ← format_bytes (Stats.shmem stats);
       rss ← format_bytes (Stats.rss stats);
       mret (Some (TableRow.mk_details limit swaplimit anon file shmem rss))
     else mret None);
  mret {| TableRow.container := name;
          TableRow.id := cid;
          TableRow.ram := ram;
          TableRow.ram_raw := Stats.ram stats;
          TableRow.swap := swap;
          TableRow.swap_raw := Stats.swap stats;
          TableRow.more := more |}.

(** [for container in containers: ... rows.append(row)] *)
Fixpoint rows_loop (fs : filesystem) (cgroup_version : Z) (details : bool)
    (containers : list container) (rows : list TableRow.t)
  : result (list TableRow.t) :=
  match containers with
  | [] => Ok rows
  | c :: rest =>
      row ← make_row fs cgroup_version details c;
      rows_loop fs cgroup_version details rest (rows ++ [row])
  end.

(** [main], from the detection of the version to the rows. *)
Definition main_rows (fs : filesystem) (details : bool)
    (containers : list container) : result (list TableRow.t) :=
  let cgroup_version := get_cgroup_version fs in
  rows_loop fs cgroup_version details containers [].

End Rows.

(** ** Filesystems given by tables, for the examples *)

Inductive node : Type :=
  | Dir
  | File (text : string)
  | Locked.                  (* a file that exists and cannot be opened *)

Fixpoint assoc {A : Type} (key : string) (table : list (string * A))
  : option A :=
  match table with
  | [] => None
  | (k, a) :: rest => if String.eqb k key then Some a else assoc key rest
  end.

Definition fs_of (nodes : list (string * node))
    (globs : list (string * list string)) : filesystem :=
  {| path_exists p := bool_decide (is_Some (assoc p nodes));
     read_text p :=
       match assoc p nodes with
       | Some (File text) => Ok text
       | Some Dir | Some Locked | None => Raise OSError
       end;
     glob pattern := default [] (assoc pattern globs) |}.

(** ** The words of the specification *)

Module Spec.

Definition is_digit (c : ascii) : bool :=
  (48 <=? Text.code c) && (Text.code c <=? 57).

Fixpoint all_digits (s : string) : bool :=
  match s with
  | EmptyString => true
  | String c r => is_digit c && all_digits r
  end.

(** A valid base-10 numeral: one decimal digit or more. *)
Definition is_numeral (s : string) : bool :=
  match s with
  | EmptyString => false
  | String _ _ => all_digits s
  end.

(** The integer a numeral denotes, digit by position. *)
Fixpoint numeral_value (s : string) : Z :=
  match s with
  | EmptyString => 0
  | String c r =>
      (Text.code c - 48) * 10 ^ Z.of_nat (String.length r) + numeral_value r
  end.

(** A well-formed line of a keyed stat file: exactly two tokens separated
    by white space, the second one an integer. *)
Definition well_formed (line : string) : option (string * Z) :=
  match Text.split line with
  | [key; value] =>
      match PyInt.int value with
      | Ok v => Some (key, v)
      | Raise _ => None
      end
  | _ => None
  end.

Definition add_line (stats : gmap string Z) (line : string) : gmap string Z :=
  match well_formed line with
  | Some (key, v) => <[key := v]> stats
  | None => stats
  end.

(** [readKeyedStats] as the specification words it: every well-formed
    line gives its pair, every other line is skipped. *)
Definition readKeyedStats (lines : list string) : gmap string Z :=
  foldl add_line ∅ lines.

(** A line of two tokens whose value is not an integer. *)
Definition bad_value (line : string) : bool :=
  match Text.split line with
  | [_; value] =>
      match PyInt.int value with
      | Ok _ => false
      | Raise _ => true
      end
  | _ => false
  end.

(** The lines before the first one with a bad value. *)
Fixpoint before_bad_value (lines : list string) : list string :=
  match lines with
  | [] => []
  | line :: rest =>
      if bad_value line then [] else line :: before_bad_value rest
  end.

(** What the v1 collector reads from one scalar file of a container. *)
Definition v1_read (fs : filesystem) (container_id name : string)
  : option Z :=
  read_cgroup_file fs
    (path_join ("/sys/fs/cgroup/memory/docker/" +:+ container_id) name).

(** A field is a non-negative integer or absent. *)
Definition nonneg (field : option Z) : Prop :=
  match field with
  | Some z => 0 <= z
  | None => True
  end.

Fixpoint has_minus (s : string) : bool :=
  match s with
  | EmptyString => false
  | String c r => Ascii.eqb c "-" || has_minus r
  end.

(** No file that can be read holds a minus sign. *)
Definition minus_free (fs : filesystem) : Prop :=
  ∀ path text, read_text fs path = Ok text → has_minus text = false.

(** An unchanged system: the second run gets the answers of the first. *)
Definition unchanged (fs1 fs2 : filesystem) : Prop :=
  (∀ path, path_exists fs1 path = path_exists fs2 path)
  ∧ (∀ path, read_text fs1 path = read_text fs2 path)
  ∧ (∀ pattern, glob fs1 pattern = glob fs2 pattern).

(** A byte count that [format_bytes] can render. *)
Definition scalable (field : option Z) : bool :=
  match field with
  | Some v =>
      if v <? 1024 then negb (float_overflows v)
      else negb (division_overflows v)
  | None => true
  end.

(** Every byte count of the record can be rendered. *)
Definition renderable (stats : Stats.t) : bool :=
  forallb scalable (Stats.fields stats).

(** The tag of a row as the claim words it, and as [main] writes it. *)
Definition tagged_with_id (c : container) (row : TableRow.t) : Prop :=
  TableRow.container row = c_name c ∧ TableRow.id row = c_id c.

Definition tagged (c : container) (row : TableRow.t) : Prop :=
  TableRow.container row = c_name c ∧ TableRow.id row = Text.prefix 12 (c_id c).

End Spec.

(** ** Fixtures *)

Definition nl : string := String Text.LF EmptyString.

(** A container id as [docker ps --no-trunc] prints it. *)
Definition web_id : string :=
  "3f4e8a1b9c0d7e6f5a4b3c2d1e0f9a8b7c6d5e4f3a2b1c0d9e8f7a6b5c4d3e2f".

Definition web : container := {| c_id := web_id; c_name := "web" |}.
Definition db : container := {| c_id := "def456"; c_name := "db" |}.

Definition v1_dir (container_id : string) : string :=
  "/sys/fs/cgroup/memory/docker/" +:+ container_id.

(** A cgroup v1 host: 100MB of RAM and 150MB of RAM and swap in use. *)
Definition fs_v1 : filesystem :=
  fs_of
    [ (v1_dir web_id, Dir);
      (v1_dir web_id +:+ "/memory.usage_in_bytes", File ("104857600" +:+ nl));
      (v1_dir web_id +:+ "/memory.memsw.usage_in_bytes",
        File ("157286400" +:+ nl));
      (v1_dir web_id +:+ "/memory.limit_in_bytes", File ("536870912" +:+ nl));
      (v1_dir web_id +:+ "/memory.memsw.limit_in_bytes",
        File ("1073741824" +:+ nl));
      (v1_dir web_id +:+ "/memory.stat",
        File ("cache 4096" +:+ nl +:+ "rss 8192" +:+ nl +:+ "shmem 0" +:+ nl)) ]
    [].

(** The same host when the two usage counters were read across a change:
    less RAM and swap than RAM. *)
Definition fs_v1_race : filesystem :=
  fs_of
    [ (v1_dir web_id +:+ "/memory.usage_in_bytes", File ("209715200" +:+ nl));
      (v1_dir web_id +:+ "/memory.memsw.usage_in_bytes",
        File ("104857600" +:+ nl)) ]
    [].

(** A usage file that holds a signed numeral. *)
Definition fs_v1_signed : filesystem :=
  fs_of
    [ (v1_dir web_id +:+ "/memory.usage_in_bytes", File ("-5" +:+ nl)) ]
    [].

Fixpoint zeros (n : nat) : string :=
  match n with
  | O => EmptyString
  | S n' => String "0" (zeros n')
  end.

(** A usage file that holds a one followed by 312 zeros. *)
Definition fs_v1_huge : filesystem :=
  fs_of
    [ (v1_dir web_id +:+ "/memory.usage_in_bytes",
        File ("1" +:+ zeros 312 +:+ nl)) ]
    [].

(** A stat file whose second line has a value that is no integer. *)
Definition stat_text_bad : string :=
  "anon 1" +:+ nl +:+ "file x" +:+ nl +:+ "shmem 3" +:+ nl.

Definition fs_stat_bad : filesystem :=
  fs_of [ (v1_dir web_id +:+ "/memory.stat", File stat_text_bad) ] [].

Definition v2_scope : string :=
  "/sys/fs/cgroup/system.slice/docker-def456.scope".

(** A cgroup v2 host with one scope, an unlimited memory and no swap file. *)
Definition fs_v2 : filesystem :=
  fs_of
    [ ("/sys/fs/cgroup/cgroup.controllers", File ("cpu memory" +:+ nl));
      (v2_scope, Dir);
      (v2_scope +:+ "/memory.current", File ("2048" +:+ nl));
      (v2_scope +:+ "/memory.max", File ("max" +:+ nl));
      (v2_scope +:+ "/memory.events", File ("low zero" +:+ nl));
      (v2_scope +:+ "/memory.swap.max", Locked);
      (v2_scope +:+ "/memory.stat",
        File ("anon 1024" +:+ nl +:+ "file 512" +:+ nl)) ]
    [ ("/sys/fs/cgroup/**/docker-def456.scope", [v2_scope]) ].

(** A rendering of byte counts for the examples. *)
Definition render_plain (value : Z) : string := "bytes".

Fixpoint has_space (s : string) : bool :=
  match s with
  | EmptyString => false
  | String c r => Text.isspace c || has_space r
  end.

(** ** ContainerLister: [get_all_containers] *)

Module Docker.

(** A line boundary of [str.splitlines] below 256: LF, VT, FF, CR, FS, GS,
    RS and NEL. *)
Definition is_boundary (c : ascii) : bool :=
  let n := Text.code c in
  ((10 <=? n) && (n <=? 13)) || ((28 <=? n) && (n <=? 30)) || (n =? 133).

Definition CR : ascii := ascii_of_nat 13.

(** [s.splitlines()]: the lines without their boundaries; a carriage
    return and the line feed after it are one boundary. *)
Fixpoint splitlines (s : string) : list string :=
  match s with
  | EmptyString => []
  | String c r =>
      if is_boundary c then
        EmptyString ::
          match r with
          | String d r' =>
              if Ascii.eqb c CR && Ascii.eqb d Text.LF then splitlines r'
              else splitlines r
          | EmptyString => []
          end
      else match splitlines r with
           | l :: ls => String c l :: ls
           | [] => [String c EmptyString]
           end
  end.

(** The characters up to the first white space, and the text from it on. *)
Fixpoint span_token (s : string) : string * string :=
  match s with
  | EmptyString => (EmptyString, EmptyString)
  | String c r =>
      if Text.isspace c then (EmptyString, s)
      else let '(token, rest) := span_token r in (String c token, rest)
  end.

(** [s.split(maxsplit=1)]: the first token, and what follows the white
    space after it when something does. *)
Definition split1 (s : string) : list string :=
  match Text.lstrip_by Text.isspace s with
  | EmptyString => []
  | body =>
      let '(token, rest) := span_token body in
      match Text.lstrip_by Text.isspace rest with
      | EmptyString => [token]
      | rest => [token; rest]
      end
  end.

(** The run of [docker ps] as [subprocess.run] with [check=True] hands it
    over: the standard output of a run that exited with 0, or the
    exception for another exit status with the standard error. *)
Inductive docker_ps : Type :=
  | Completed (stdout : string)
  | CalledProcessError (stderr : string).

(** How a call ends: it returns, it raises, or it exits the program. *)
Inductive outcome (A : Type) : Type :=
  | Returned (a : A)
  | Raised (e : exn)
  | Exited (code : Z).

Arguments Returned {A} a.
Arguments Raised {A} e.
Arguments Exited {A} code.

(** The loop over the lines of the output. *)
Fixpoint containers_loop (lines : list string) (containers : list container)
  : result (list container) :=
  match lines with
  | [] => Ok containers
  | line :: rest =>
      if String.eqb line "" then containers_loop rest containers
      else
        match split1 (Text.strip line) with
        | [cid; name] =>
            containers_loop rest
              (containers ++ [{| c_id := cid; c_name := name |}])
        | _ => Raise ValueError     (* cid, name = ...: wrong count *)
        end
  end.

Definition get_all_containers (run : docker_ps)
  : outcome (list container) :=
  match run with
  | Completed stdout =>
      match containers_loop (splitlines (Text.strip stdout)) [] with
      | Ok containers => Returned containers
      | Raise e => Raised e       (* no CalledProcessError: not caught *)
      end
  | CalledProcessError _ => Exited 1      (* logging.error, exit(1) *)
  end.

Fixpoint has_boundary (s : string) : bool :=
  match s with
  | EmptyString => false
  | String c r => is_boundary c || has_boundary r
  end.

(** An id that [docker ps] can print: not empty, without white space. *)
Definition clean_id (cid : string) : bool :=
  negb (String.eqb cid "") && negb (has_space cid).

(** A name that [docker ps] can print on one line: not empty, without
    white space at its ends and without a line boundary. *)
Definition clean_name (name : string) : bool :=
  negb (Text.starts_with_space name)
  && String.eqb (Text.rstrip_by Text.isspace name) name
  && negb (has_boundary name).

(** What [docker ps --format "{{.ID}} {{.Names}}"] prints for a container,
    and for a list of containers: one line each. *)
Definition ps_line (c : container) : string :=
  c_id c +:+ String " " (c_name c).

Fixpoint ps_output (containers : list container) : string :=
  match containers with
  | [] => EmptyString
  | c :: rest => ps_line c +:+ String Text.LF (ps_output rest)
  end.

(** A container that [docker ps] can print on one line. *)
Definition clean (c : container) : Prop :=
  Docker.clean_id (c_id c) = true ∧ Docker.clean_name (c_name c) = true.

(** The lines that give a container. *)
Definition stated (lines : list string) : list string :=
  filter (λ line, line ≠ EmptyString) lines.

(** A line and the container read from it. *)
Definition parsed (line : string) (c : container) : Prop :=
  Text.split line = c_id c :: Text.split (c_name c)
  ∧ Text.starts_with_space (c_name c) = false
  ∧ Text.rstrip_by Text.isspace (c_name c) = c_name c.

End Docker.

(** ** More words for the properties of the readers and of the rows *)

(** The row of a container of which nothing is known. *)
Definition na_row (details : bool) (c : container) : TableRow.t :=
  {| TableRow.container := c_name c;
     TableRow.id := Text.prefix 12 (c_id c);
     TableRow.ram := "N/A";
     TableRow.ram_raw := None;
     TableRow.swap := "N/A";
     TableRow.swap_raw := None;
     TableRow.more :=
       if details
       then Some (TableRow.mk_details "N/A" "N/A" "N/A" "N/A" "N/A" "N/A")
       else None |}.

(** No file can be opened and read. *)
Definition unreadable (fs : filesystem) : Prop :=
  ∀ path, ∃ e, read_text fs path = Raise e.

(** What [read_cgroup_file] makes of the text of a file. *)
Definition scalar_of_text (content : string) : option Z :=
  let content := Text.strip content in
  if String.eqb content "max" then None
  else match PyInt.int content with
       | Ok value => Some value
       | Raise _ => None
       end.

(** The text of a file holds unsigned 64-bit counters only, read as a
    scalar and read as a keyed stat file. *)
Definition text_counters64 (text : string) : Prop :=
  (∀ z, scalar_of_text text = Some z → 0 <= z < 2 ^ 64)
  ∧ map_Forall (λ _ z, 0 <= z < 2 ^ 64)
      (fst (stat_loop (Text.lines text) ∅)).

(** Every readable file holds unsigned 64-bit counters only. *)
Definition counters64 (fs : filesystem) : Prop :=
  ∀ path text, read_text fs path = Ok text → text_counters64 text.

(** ** The filter of [main] *)

Module Filter.

(** [c.lower()] on one character below 256: the letters A to Z, and the
    letters from 192 to 222 but the multiplication sign. *)
Definition lower_char (c : ascii) : ascii :=
  let n := Text.code c in
  if ((65 <=? n) && (n <=? 90))
     || ((192 <=? n) && (n <=? 222) && negb (n =? 215))
  then ascii_of_N (Z.to_N (n + 32))
  else c.

(** [s.lower()] *)
Fixpoint lower (s : string) : string :=
  match s with
  | EmptyString => EmptyString
  | String c r => String (lower_char c) (lower r)
  end.

Fixpoint starts_with (prefix s : string) : bool :=
  match prefix, s with
  | EmptyString, _ => true
  | String _ _, EmptyString => false
  | String a prefix', String b s' => Ascii.eqb a b && starts_with prefix' s'
  end.

(** [needle in hay] *)
Fixpoint contains (needle hay : string) : bool :=
  match hay with
  | EmptyString => starts_with needle hay
  | String _ r => starts_with needle hay || contains needle r
  end.

(** The condition of the list comprehension. *)
Definition matches (filter_str : string) (c : container) : bool :=
  contains (lower filter_str) (lower (c_name c))
  || contains (lower filter_str) (lower (c_id c)).

(** [if filter_str: containers = [c for c in containers if ...]] *)
Definition apply_filter (filter_str : option string)
    (containers : list container) : list container :=
  match filter_str with
  | None | Some EmptyString => containers
  | Some f => List.filter (matches f) containers
  end.

(** The text [needle] occurs in the text [hay]. *)
Definition occurs (needle hay : string) : Prop :=
  ∃ before after, hay = before +:+ needle +:+ after.

End Filter.

(** ** Colours and names of the table *)

Definition ESC : ascii := ascii_of_nat 27.
Definition RESET : string := String ESC "[0m".
Definition YELLOW : string := String ESC "[93m".
Definition RED : string := String ESC "[91m".

(** The default thresholds of [colorize_value]: 500 MiB and 2 GiB. *)
Definition default_warn : Z := 500 * 1024 * 1024.
Definition default_crit : Z := 2 * 1024 * 1024 * 1024.

Definition colorize_value (value : string) (raw : option Z) (warn crit : Z)
  : string :=
  match raw with
  | None => value
  | Some raw =>
      if String.eqb value "N/A" then value
      else if crit <=? raw then RED +:+ value +:+ RESET
      else if warn <=? raw then YELLOW +:+ value +:+ RESET
      else value
  end.

(** A text that may hold characters from 256 on, as its code points. *)
Definition ELLIPSIS : N := 8230.

(** [l[:stop]] *)
Definition slice_to {A : Type} (stop : Z) (l : list A) : list A :=
  let n := Z.of_nat (length l) in
  let stop := if stop <? 0 then Z.max 0 (stop + n) else Z.min stop n in
  take (Z.to_nat stop) l.

Definition truncate_name (name : list N) (width : Z) : list N :=
  if width <? Z.of_nat (length name)
  then (slice_to (width - 1) name ++ [ELLIPSIS])%list
  else name.

(** ** The text of [format_bytes] *)

Module Float.

(** The integer that [float(n)] is: [n] when it has 53 bits or fewer, and
    otherwise [n] rounded to 53 bits, a tie going to the even side. It
    stands for the conversion where it does not overflow. *)
Definition round53 (n : Z) : Z :=
  let a := Z.abs n in
  let bits := Z.log2 a + 1 in
  if bits <=? 53 then n
  else
    let e := bits - 53 in
    let q := a / 2 ^ e in
    let r := a mod 2 ^ e in
    let half := 2 ^ (e - 1) in
    let q' := if (half <? r) || ((r =? half) && Z.odd q) then q + 1 else q in
    Z.sgn n * (q' * 2 ^ e).

(** The value that [format_bytes] scales: the integer it was given, then
    the float [m / 2^j] that the divisions by 1024 make of it. *)
Inductive number : Type :=
  | Int (n : Z)
  | Flt (m j : Z).

(** [value < 1024] *)
Definition lt_1024 (value : number) : bool :=
  match value with
  | Int n => n <? 1024
  | Flt m j => m <? 1024 * 2 ^ j
  end.

(** [value / 1024]: the quotient of two integers is rounded as the
    integer is, the quotient of a float by a power of two is exact. *)
Definition div_1024 (value : number) : number :=
  match value with
  | Int n => Flt (round53 n) 10
  | Flt m j => Flt m (j + 10)
  end.

Definition digit_char (d : Z) : ascii := ascii_of_N (Z.to_N (48 + d)).

Fixpoint decimal_go (fuel : nat) (n : Z) (acc : string) : string :=
  match fuel with
  | O => acc
  | S fuel' =>
      let acc' := String (digit_char (n mod 10)) acc in
      if n <? 10 then acc' else decimal_go fuel' (n / 10) acc'
  end.

(** The decimal digits of an integer that is not negative. *)
Definition decimal (n : Z) : string :=
  decimal_go (S (Z.to_nat (Z.log2 n))) n EmptyString.

(** The tenths nearest to [|m| / 2^j], a tie going to the even side. *)
Definition tenths (m j : Z) : Z :=
  let num := 10 * Z.abs m in
  let den := 2 ^ j in
  let q := num / den in
  let r := num mod den in
  if (den <? 2 * r) || ((2 * r =? den) && Z.odd q) then q + 1 else q.

(** [f"{x:.1f}"] for the float [m / 2^j] *)
Definition fmt_1f (m j : Z) : string :=
  let t := tenths m j in
  (if m <? 0 then "-" else "") +:+ decimal (t / 10)
  +:+ "." +:+ decimal (t mod 10).

(** [f"{value:.1f}"]: an integer is converted to a float first. *)
Definition fmt (value : number) : string :=
  match value with
  | Int n => fmt_1f (round53 n) 0
  | Flt m j => fmt_1f m j
  end.

(** The loop over the units, and the return after it. *)
Fixpoint units_loop (units : list string) (value : number) : string :=
  match units with
  | [] => fmt value +:+ " PB"
  | unit :: rest =>
      if lt_1024 value then fmt value +:+ " " +:+ unit
      else units_loop rest (div_1024 value)
  end.

(** The text of [format_bytes] for an integer, where nothing overflows. *)
Definition render_bytes (value : Z) : string :=
  units_loop ["B"; "KB"; "MB"; "GB"; "TB"] (Int value).

(** The unit of an integer and the power of two it is divided by, as the
    powers of 1024 tell them. *)
Definition scale (value : Z) : Z * string :=
  if value <? 1024 then (0, "B")
  else if value <? 1024 ^ 2 then (10, "KB")
  else if value <? 1024 ^ 3 then (20, "MB")
  else if value <? 1024 ^ 4 then (30, "GB")
  else if value <? 1024 ^ 5 then (40, "TB")
  else (50, "PB").

End Float.

(** ** [main], from the check of the dependencies to the rows *)

Section Main.
Variable render : Z → string.

(** [docker] is the answer of [shutil.which] and, when it finds the
    program, the run of [docker ps]. *)
Definition main_collect (fs : filesystem)
    (docker : option Docker.docker_ps) (details : bool)
    (filter_str : option string) : Docker.outcome (list TableRow.t) :=
  match docker with
  | None => Docker.Exited 1          (* check_dependencies: exit(1) *)
  | Some run =>
      let cgroup_version := get_cgroup_version fs in
      match Docker.get_all_containers run with
      | Docker.Returned containers =>
          let containers := Filter.apply_filter filter_str containers in
          match rows_loop render fs cgroup_version details containers [] with
          | Ok rows => Docker.Returned rows
          | Raise e => Docker.Raised e
          end
      | Docker.Raised e => Docker.Raised e
      | Docker.Exited code => Docker.Exited code
      end
  end.
End Main.

(** Comparisons on character codes, turned into propositions. *)
Ltac codes :=
  repeat match goal with
    | H : context [?a <=? ?b] |- _ => destruct (Z.leb_spec a b)
    | |- context [?a <=? ?b] => destruct (Z.leb_spec a b)
    | H : context [?a =? ?b] |- _ => destruct (Z.eqb_spec a b)
    | |- context [?a =? ?b] => destruct (Z.eqb_spec a b)
    end;
  simpl in *; try discriminate; try lia; auto.

(** * Properties *)

(** ** Examples of the text functions *)

Example split_ex1 : Text.split "  anon   12 " = ["anon"; "12"].
Proof. reflexivity. Qed.
Example lines_ex1 : Text.lines ("a 1" +:+ nl +:+ "b" +:+ nl +:+ "c")
                    = ["a 1" +:+ nl; "b" +:+ nl; "c"].
Proof. reflexivity. Qed.
Example lines_ex2 : Text.lines (nl +:+ nl +:+ "c" +:+ nl) = [nl; nl; "c" +:+ nl].
Proof. reflexivity. Qed.
Example int_ex1 : PyInt.int "1_000" = Ok 1000. Proof. reflexivity. Qed.
Example int_ex2 : PyInt.int "-5" = Ok (-5). Proof. reflexivity. Qed.
Example int_ex3 : PyInt.int "1__0" = Raise ValueError. Proof. reflexivity. Qed.
Example int_ex4 : PyInt.int "max" = Raise ValueError. Proof. reflexivity. Qed.
Example int_ex5 : PyInt.int " 007 " = Ok 7. Proof. reflexivity. Qed.
Example int_ex6 : PyInt.int "" = Raise ValueError. Proof. reflexivity. Qed.
Example int_ex7 : PyInt.int "+_5" = Raise ValueError. Proof. reflexivity. Qed.
Example int_ex8 : PyInt.int "5_" = Raise ValueError. Proof. reflexivity. Qed.
Example strip_ex : Text.strip "  a b  " = "a b". Proof. reflexivity. Qed.
Example join_ex1 : path_join "/a/b" "c" = "/a/b/c". Proof. reflexivity. Qed.
Example join_ex2 : path_join "/a/b/" "c" = "/a/b/c". Proof. reflexivity. Qed.
Example join_ex3 : path_join "" "c" = "c". Proof. reflexivity. Qed.

(** ** Examples of the collectors *)

Example v1_example :
  get_memory_stats_v1 fs_v1 web_id
  = Stats.mk (Some 104857600) (Some 52428800) (Some 536870912)
      (Some 536870912) None None (Some 0) (Some 8192).
Proof. vm_compute. reflexivity. Qed.

Example v2_example :
  get_memory_stats_v2 fs_v2 "def456"
  = Stats.mk (Some 2048) None None None (Some 1024) (Some 512) None None.
Proof. vm_compute. reflexivity. Qed.

Example version_example :
  get_cgroup_version fs_v1 = 1 ∧ get_cgroup_version fs_v2 = 2.
Proof. split; reflexivity. Qed.


(** ** The version detector *)

(** C6: the detector answers 2 exactly when the file
    [/sys/fs/cgroup/cgroup.controllers] exists and 1 exactly when it does
    not; it is a total function of the filesystem with these two values
    only, and the existence of that one path is all it takes from the
    filesystem. *)
Theorem get_cgroup_version_spec (fs : filesystem) :
  (get_cgroup_version fs = 2
     ↔ path_exists fs "/sys/fs/cgroup/cgroup.controllers" = true)
  ∧ (get_cgroup_version fs = 1
     ↔ path_exists fs "/sys/fs/cgroup/cgroup.controllers" = false)
  ∧ (get_cgroup_version fs = 1 ∨ get_cgroup_version fs = 2)
  ∧ (∀ fs' : filesystem,
       path_exists fs' "/sys/fs/cgroup/cgroup.controllers"
       = path_exists fs "/sys/fs/cgroup/cgroup.controllers" →
       get_cgroup_version fs' = get_cgroup_version fs).
Proof.
  unfold get_cgroup_version.
  split; [|split; [|split]].
  - destruct (path_exists fs _); split; intros; auto; discriminate.
  - destruct (path_exists fs _); split; intros; auto; discriminate.
  - destruct (path_exists fs _); auto.
  - by intros fs' ->.
Qed.

(** ** The v1 collector: swap by subtraction *)

Section V1.
Variable fs : filesystem.
Variable container_id : string.

Lemma v1_ram :
  Stats.ram (get_memory_stats_v1 fs container_id)
  = Spec.v1_read fs container_id "memory.usage_in_bytes".
Proof. reflexivity. Qed.

Lemma v1_limit :
  Stats.limit (get_memory_stats_v1 fs container_id)
  = Spec.v1_read fs container_id "memory.limit_in_bytes".
Proof. reflexivity. Qed.

Lemma v1_swap :
  Stats.swap (get_memory_stats_v1 fs container_id)
  = match Spec.v1_read fs container_id "memory.usage_in_bytes",
          Spec.v1_read fs container_id "memory.memsw.usage_in_bytes" with
    | Some ram, Some memsw => Some (memsw - ram)
    | _, _ => None
    end.
Proof. reflexivity. Qed.

Lemma v1_swaplimit :
  Stats.swaplimit (get_memory_stats_v1 fs container_id)
  = match Spec.v1_read fs container_id "memory.limit_in_bytes",
          Spec.v1_read fs container_id "memory.memsw.limit_in_bytes" with
    | Some limit, Some memsw_limit => Some (memsw_limit - limit)
    | _, _ => None
    end.
Proof.
  unfold get_memory_stats_v1, Spec.v1_read. cbn [Stats.swaplimit].
  by destruct (read_cgroup_file fs (path_join _ "memory.memsw.limit_in_bytes")),
    (read_cgroup_file fs (path_join _ "memory.limit_in_bytes")).
Qed.

(** A difference of two optional operands. *)
Lemma difference_present (a b : option Z) (z : Z) :
  match a, b with Some a, Some b => Some (b - a) | _, _ => None end = Some z
  ↔ ∃ x y, a = Some x ∧ b = Some y ∧ z = y - x.
Proof.
  destruct a as [x|], b as [y|]; split;
    try (intros [= <-]; eauto; fail);
    try (intros (x' & y' & Hx & Hy & ->); congruence);
    try discriminate.
Qed.

Lemma difference_absent (a b : option Z) :
  match a, b with Some a, Some b => Some (b - a) | _, _ => None end = None
  ↔ a = None ∨ b = None.
Proof.
  destruct a as [x|], b as [y|]; split; auto; try discriminate.
  intros [?|?]; discriminate.
Qed.

(** C3: in the v1 collector the swap is present exactly when the reads of
    [memory.usage_in_bytes] and [memory.memsw.usage_in_bytes] both are, and
    is then their difference; it is absent as soon as one of them is, never
    zero or the other operand. The swap limit relates to the two limits in
    the same way. With 104857600 bytes of RAM and 157286400 of RAM and
    swap, the swap is 52428800. *)
Theorem v1_swap_spec :
  let stats := get_memory_stats_v1 fs container_id in
  let ram := Spec.v1_read fs container_id "memory.usage_in_bytes" in
  let memsw := Spec.v1_read fs container_id "memory.memsw.usage_in_bytes" in
  let ram_limit := Spec.v1_read fs container_id "memory.limit_in_bytes" in
  let memsw_limit :=
    Spec.v1_read fs container_id "memory.memsw.limit_in_bytes" in
  Stats.ram stats = ram
  ∧ (∀ z, Stats.swap stats = Some z
          ↔ ∃ r m, ram = Some r ∧ memsw = Some m ∧ z = m - r)
  ∧ (Stats.swap stats = None ↔ ram = None ∨ memsw = None)
  ∧ Stats.limit stats = ram_limit
  ∧ (∀ z, Stats.swaplimit stats = Some z
          ↔ ∃ r m, ram_limit = Some r ∧ memsw_limit = Some m ∧ z = m - r)
  ∧ (Stats.swaplimit stats = None ↔ ram_limit = None ∨ memsw_limit = None)
  ∧ (ram = Some 104857600 → memsw = Some 157286400 →
     Stats.swap stats = Some 52428800).
Proof.
  cbv zeta. rewrite v1_swap, v1_swaplimit.
  split; [exact v1_ram|].
  split; [intros z; apply difference_present|].
  split; [apply difference_absent|].
  split; [exact v1_limit|].
  split; [intros z; apply difference_present|].
  split; [apply difference_absent|].
  by intros -> ->.
Qed.
End V1.

Lemma v1_swap_spec_witness :
  Stats.swap (get_memory_stats_v1 fs_v1 web_id) = Some 52428800.
Proof.
  apply (v1_swap_spec fs_v1 web_id); vm_compute; reflexivity.
Defined.

(** ** The v2 collector without a scope directory *)

Lemma find_cgroup_path_v2_none (fs : filesystem) (container_id : string) :
  find_cgroup_path_v2 fs container_id = None
  ↔ glob fs ("/sys/fs/cgroup/**/docker-" +:+ container_id +:+ ".scope") = [].
Proof.
  unfold find_cgroup_path_v2. destruct (glob fs _); split; congruence.
Qed.

(** C4: when the search for [docker-<id>.scope] finds nothing, the v2
    collector returns a record, and each of its eight fields is absent. *)
Theorem v2_no_scope_all_absent (fs : filesystem) (container_id : string) :
  glob fs ("/sys/fs/cgroup/**/docker-" +:+ container_id +:+ ".scope") = [] →
  find_cgroup_path_v2 fs container_id = None
  ∧ get_memory_stats_v2 fs container_id = Stats.absent
  ∧ Stats.fields (get_memory_stats_v2 fs container_id) = replicate 8 None.
Proof.
  intros Hglob. apply find_cgroup_path_v2_none in Hglob.
  unfold get_memory_stats_v2. rewrite Hglob. auto.
Qed.

Lemma v2_no_scope_all_absent_witness :
  get_memory_stats_v2 fs_v1 web_id = Stats.absent.
Proof.
  apply (v2_no_scope_all_absent fs_v1 web_id). reflexivity.
Defined.

(** ** Two runs on an unchanged system *)

Section Unchanged.
Variables fs1 fs2 : filesystem.
Hypothesis same : Spec.unchanged fs1 fs2.

Lemma read_cgroup_file_unchanged (path : string) :
  read_cgroup_file fs1 path = read_cgroup_file fs2 path.
Proof.
  unfold read_cgroup_file. destruct same as (_ & Hread & _).
  by rewrite Hread.
Qed.

Lemma read_cgroup_stat_file_unchanged (path : string) :
  read_cgroup_stat_file fs1 path = read_cgroup_stat_file fs2 path.
Proof.
  unfold read_cgroup_stat_file. destruct same as (_ & Hread & _).
  by rewrite Hread.
Qed.

Lemma find_cgroup_path_v2_unchanged (container_id : string) :
  find_cgroup_path_v2 fs1 container_id = find_cgroup_path_v2 fs2 container_id.
Proof.
  unfold find_cgroup_path_v2. destruct same as (_ & _ & Hglob).
  by rewrite Hglob.
Qed.

Lemma memory_stats_unchanged (cgroup_version : Z) (container_id : string) :
  memory_stats fs1 cgroup_version container_id
  = memory_stats fs2 cgroup_version container_id.
Proof.
  unfold memory_stats, get_memory_stats_v1, get_memory_stats_v2.
  rewrite find_cgroup_path_v2_unchanged.
  destruct same as (Hexists & _ & _).
  destruct (cgroup_version =? 1).
  - by rewrite !read_cgroup_file_unchanged, read_cgroup_stat_file_unchanged.
  - destruct (find_cgroup_path_v2 fs2 container_id) as [[|c base]|]; [done| |done].
    by rewrite !Hexists, !read_cgroup_file_unchanged,
      read_cgroup_stat_file_unchanged.
Qed.
End Unchanged.

(** C8: two runs of the collector for one container, the second on a
    system that answers as it did to the first, return records with the
    same fields present and the same fields absent. *)
Theorem memory_stats_shape_deterministic (fs1 fs2 : filesystem)
    (cgroup_version : Z) (container_id : string) :
  Spec.unchanged fs1 fs2 →
  Stats.shape (memory_stats fs1 cgroup_version container_id)
  = Stats.shape (memory_stats fs2 cgroup_version container_id).
Proof.
  intros Hsame. by rewrite (memory_stats_unchanged fs1 fs2 Hsame).
Qed.

Lemma memory_stats_shape_deterministic_witness :
  Stats.shape (memory_stats fs_v2 2 "def456")
  = Stats.shape
      (memory_stats
         {| path_exists p := path_exists fs_v2 p;
            read_text p := read_text fs_v2 p;
            glob p := glob fs_v2 p |} 2 "def456").
Proof.
  apply memory_stats_shape_deterministic.
  repeat split; intros; reflexivity.
Defined.

(** ** Reading a scalar *)

Lemma digit_is_not (c d : ascii) :
  Spec.is_digit c = true → Spec.is_digit d = false → Ascii.eqb c d = false.
Proof.
  intros Hc Hd. destruct (Ascii.eqb_spec c d) as [->|]; congruence.
Qed.

Lemma digit_value_of_digit (c : ascii) :
  Spec.is_digit c = true → PyInt.digit_value c = Some (Text.code c - 48).
Proof.
  unfold Spec.is_digit, PyInt.digit_value. cbv zeta. intros ->. reflexivity.
Qed.

Lemma digit_not_int_space (c : ascii) :
  Spec.is_digit c = true → PyInt.isspace c = false.
Proof.
  unfold Spec.is_digit, PyInt.isspace. cbv zeta.
  set (n := Text.code c). intros H. codes.
Qed.

Lemma all_digits_no_space (s : string) :
  Spec.all_digits s = true → Text.rstrip_by PyInt.isspace s = s.
Proof.
  induction s as [|c r IH]; [done|]. cbn.
  intros [Hc Hr]%andb_true_iff. rewrite (IH Hr).
  apply digit_not_int_space in Hc. rewrite Hc. by destruct r.
Qed.

Lemma strip_numeral (s : string) :
  Spec.is_numeral s = true → Text.strip_by PyInt.isspace s = s.
Proof.
  destruct s as [|c r]; [done|]. cbn [Spec.is_numeral]. intros Hs.
  unfold Text.strip_by.
  assert (Text.lstrip_by PyInt.isspace (String c r) = String c r) as ->.
  { cbn in Hs |- *. apply andb_true_iff in Hs as [Hc _].
    by rewrite (digit_not_int_space c Hc). }
  by apply all_digits_no_space.
Qed.

Lemma digits_of_all_digits (s : string) (acc : Z) :
  Spec.all_digits s = true →
  PyInt.digits s false acc
  = Some (acc * 10 ^ Z.of_nat (String.length s) + Spec.numeral_value s).
Proof.
  revert acc. induction s as [|c r IH]; intros acc.
  - intros _. cbn. f_equal. lia.
  - cbn [Spec.all_digits]. intros [Hc Hr]%andb_true_iff.
    cbn [PyInt.digits Spec.numeral_value String.length].
    rewrite (digit_is_not c PyInt.underscore Hc) by reflexivity.
    rewrite (digit_value_of_digit c Hc), (IH _ Hr).
    f_equal. rewrite Nat2Z.inj_succ, Z.pow_succ_r by lia. ring.
Qed.

Lemma numeral_head (s : string) :
  Spec.is_numeral s = true → ∃ c r, s = String c r ∧ Spec.is_digit c = true.
Proof.
  destruct s as [|c r]; [done|]. cbn.
  intros [Hc _]%andb_true_iff. eauto.
Qed.

Lemma magnitude_of_numeral (s : string) :
  Spec.is_numeral s = true → PyInt.magnitude s = Some (Spec.numeral_value s).
Proof.
  intros Hs. destruct (numeral_head s Hs) as (c & r & -> & Hc).
  unfold PyInt.magnitude.
  rewrite (digit_is_not c PyInt.underscore Hc) by reflexivity.
  cbn [Spec.is_numeral] in Hs.
  rewrite (digits_of_all_digits _ 0 Hs). f_equal.
Qed.

Lemma int_of_numeral (s : string) :
  Spec.is_numeral s = true → PyInt.int s = Ok (Spec.numeral_value s).
Proof.
  intros Hs. unfold PyInt.int. rewrite (strip_numeral s Hs).
  destruct (numeral_head s Hs) as (c & r & -> & Hc).
  unfold PyInt.sign.
  rewrite (digit_is_not c "+" Hc), (digit_is_not c "-" Hc) by reflexivity.
  by rewrite (magnitude_of_numeral _ Hs).
Qed.

Lemma int_of_negative_numeral (s : string) :
  Spec.is_numeral s = true →
  PyInt.int (String "-" s) = Ok (- Spec.numeral_value s).
Proof.
  intros Hs. unfold PyInt.int, Text.strip_by.
  cbn [Text.lstrip_by]. change (PyInt.isspace "-") with false. cbv iota.
  cbn [Text.rstrip_by].
  destruct (numeral_head s Hs) as (c & r & -> & Hc).
  cbn [Spec.is_numeral] in Hs. rewrite (all_digits_no_space _ Hs).
  cbn [PyInt.sign]. change (Ascii.eqb "-" "+") with false.
  change (Ascii.eqb "-" "-") with true. cbv iota.
  by rewrite (magnitude_of_numeral (String c r) Hs).
Qed.




(** ** Signed numerals *)

(** C10: [read_cgroup_file] takes a signed numeral: when the trimmed
    content of the file is a minus sign and a numeral, it returns the
    opposite of the numeral, a present value that is negative as soon as
    the numeral is not zero. A file that holds [-5] reads as -5. *)
Theorem read_cgroup_file_signed (fs : filesystem) (path content : string)
    (numeral : string) :
  read_text fs path = Ok content →
  Text.strip content = String "-" numeral →
  Spec.is_numeral numeral = true →
  read_cgroup_file fs path = Some (- Spec.numeral_value numeral)
  ∧ (0 < Spec.numeral_value numeral →
     ¬ Spec.nonneg (read_cgroup_file fs path)).
Proof.
  intros Hread Hstrip Hnum.
  assert (read_cgroup_file fs path = Some (- Spec.numeral_value numeral))
    as ->.
  { unfold read_cgroup_file. rewrite Hread. cbn. rewrite Hstrip.
    by rewrite (int_of_negative_numeral _ Hnum). }
  split; [reflexivity|]. unfold Spec.nonneg. lia.
Qed.

Lemma read_cgroup_file_signed_witness :
  read_cgroup_file fs_v1_signed (v1_dir web_id +:+ "/memory.usage_in_bytes")
  = Some (-5)
  ∧ ¬ Spec.nonneg
        (read_cgroup_file fs_v1_signed
           (v1_dir web_id +:+ "/memory.usage_in_bytes")).
Proof.
  destruct (read_cgroup_file_signed fs_v1_signed
              (v1_dir web_id +:+ "/memory.usage_in_bytes")
              ("-5" +:+ nl) "5") as [Hvalue Hneg].
  - reflexivity.
  - reflexivity.
  - reflexivity.
  - split; [exact Hvalue|]. apply Hneg. reflexivity.
Defined.

(** ** Reading a keyed stat file *)

Lemma split_cons (c : ascii) (r : string) :
  Text.split (String c r)
  = if Text.isspace c then Text.split r
    else if Text.starts_with_space r then String c EmptyString :: Text.split r
    else match Text.split r with
         | t :: ts => String c t :: ts
         | [] => [String c EmptyString]
         end.
Proof. reflexivity. Qed.

Lemma split_lstrip (s : string) :
  Text.split (Text.lstrip_by Text.isspace s) = Text.split s.
Proof.
  induction s as [|c r IH]; [done|].
  cbn [Text.lstrip_by]. destruct (Text.isspace c) eqn:Hc; [|done].
  rewrite IH. cbn [Text.split]. by rewrite Hc.
Qed.

Lemma rstrip_head (sp : ascii → bool) (s : string) (d : ascii) (t : string) :
  Text.rstrip_by sp s = String d t → ∃ r, s = String d r.
Proof.
  destruct s as [|c r]; [done|]. cbn.
  destruct (Text.rstrip_by sp r); [destruct (sp c)|]; intros [= <- _]; eauto.
Qed.

Lemma split_rstrip (s : string) :
  Text.split (Text.rstrip_by Text.isspace s) = Text.split s.
Proof.
  induction s as [|c r IH]; [done|].
  cbn [Text.rstrip_by].
  destruct (Text.rstrip_by Text.isspace r) as [|d t] eqn:Hr.
  - cbn in IH. cbn [Text.split]. rewrite <- IH.
    destruct (Text.isspace c) eqn:Hc; [done|].
    cbn. rewrite Hc. by destruct (Text.starts_with_space r).
  - destruct (rstrip_head _ _ _ _ Hr) as [r0 ->].
    rewrite (split_cons c (String d t)), (split_cons c (String d r0)), IH.
    reflexivity.
Qed.

Lemma split_strip (s : string) : Text.split (Text.strip s) = Text.split s.
Proof.
  unfold Text.strip, Text.strip_by. by rewrite split_rstrip, split_lstrip.
Qed.

(** One turn of the loop, in the words of the specification. *)
Lemma stat_line_good (line : string) (stats : gmap string Z) :
  Spec.bad_value line = false →
  stat_line line stats = (Spec.add_line stats line, Ok tt).
Proof.
  unfold stat_line, Spec.bad_value, Spec.add_line, Spec.well_formed.
  rewrite split_strip.
  destruct (Text.split line) as [|key [|value [|]]]; try done.
  by destruct (PyInt.int value).
Qed.

Lemma stat_line_bad (line : string) (stats : gmap string Z) :
  Spec.bad_value line = true →
  ∃ e, stat_line line stats = (stats, Raise e).
Proof.
  unfold stat_line, Spec.bad_value. rewrite split_strip.
  destruct (Text.split line) as [|key [|value [|]]]; try done.
  destruct (PyInt.int value); [done|eauto].
Qed.

Lemma stat_line_skip (line : string) (stats : gmap string Z) :
  length (Text.split line) ≠ 2%nat →
  stat_line line stats = (stats, Ok tt).
Proof.
  unfold stat_line. rewrite split_strip.
  by destruct (Text.split line) as [|key [|value [|]]].
Qed.

Lemma stat_loop_before_bad (lines : list string) (stats : gmap string Z) :
  fst (stat_loop lines stats)
  = foldl Spec.add_line stats (Spec.before_bad_value lines).
Proof.
  revert stats. induction lines as [|line rest IH]; intros stats; [done|].
  cbn [stat_loop Spec.before_bad_value].
  destruct (Spec.bad_value line) eqn:Hbad.
  - destruct (stat_line_bad line stats Hbad) as [e ->]. done.
  - rewrite (stat_line_good line stats Hbad). cbn [foldl]. apply IH.
Qed.

Lemma stat_loop_skip (before after : list string) (line : string)
    (stats : gmap string Z) :
  length (Text.split line) ≠ 2%nat →
  stat_loop (before ++ line :: after) stats = stat_loop (before ++ after) stats.
Proof.
  intros Hskip. revert stats.
  induction before as [|l before IH]; intros stats; cbn [app stat_loop].
  - by rewrite (stat_line_skip line stats Hskip).
  - destruct (stat_line l stats) as [stats' [[]|e]]; [apply IH|done].
Qed.

Lemma before_bad_value_all (lines : list string) :
  Forall (λ line, Spec.bad_value line = false) lines →
  Spec.before_bad_value lines = lines.
Proof.
  induction 1 as [|line rest Hline _ IH]; [done|].
  cbn. by rewrite Hline, IH.
Qed.

Lemma before_bad_value_app (before after : list string) (bad : string) :
  Forall (λ line, Spec.bad_value line = false) before →
  Spec.bad_value bad = true →
  Spec.before_bad_value (before ++ bad :: after) = before.
Proof.
  intros Hbefore Hbad.
  induction Hbefore as [|line rest Hline _ IH]; cbn.
  - by rewrite Hbad.
  - by rewrite Hline, IH.
Qed.

Lemma stat_loop_raises (before after : list string) (bad : string)
    (stats : gmap string Z) :
  Forall (λ line, Spec.bad_value line = false) before →
  Spec.bad_value bad = true →
  ∃ e, snd (stat_loop (before ++ bad :: after) stats) = Raise e.
Proof.
  intros Hbefore Hbad. revert stats.
  induction Hbefore as [|line rest Hline _ IH]; intros stats;
    cbn [app stat_loop].
  - destruct (stat_line_bad bad stats Hbad) as [e ->]. eauto.
  - rewrite (stat_line_good line stats Hline). apply IH.
Qed.

(** A key that no line gives is left as it was. *)
Lemma foldl_add_line_other (lines : list string) (stats : gmap string Z)
    (key : string) :
  Forall (λ line, ∀ v, Spec.well_formed line ≠ Some (key, v)) lines →
  foldl Spec.add_line stats lines !! key = stats !! key.
Proof.
  intros Hlines. revert stats.
  induction Hlines as [|line rest Hline _ IH]; intros stats; [done|].
  cbn [foldl]. rewrite IH. unfold Spec.add_line.
  destruct (Spec.well_formed line) as [[k v]|] eqn:Hwf; [|done].
  apply lookup_insert_ne. intros ->. by apply (Hline v).
Qed.

(** C1, as the claim states it, fails: in a file whose second line has a
    value that is no integer, the well-formed third line is lost. *)
Lemma stat_file_loses_later_lines :
  read_cgroup_stat_file fs_stat_bad (v1_dir web_id +:+ "/memory.stat")
  = {[ "anon" := 1 ]}
  ∧ Spec.readKeyedStats (Text.lines stat_text_bad)
    = <[ "shmem" := 3 ]> {[ "anon" := 1 ]}
  ∧ read_cgroup_stat_file fs_stat_bad (v1_dir web_id +:+ "/memory.stat")
    ≠ Spec.readKeyedStats (Text.lines stat_text_bad).
Proof.
  assert (read_cgroup_stat_file fs_stat_bad (v1_dir web_id +:+ "/memory.stat")
          = {[ "anon" := 1 ]}) as Hcode by (vm_compute; reflexivity).
  assert (Spec.readKeyedStats (Text.lines stat_text_bad)
          = <[ "shmem" := 3 ]> {[ "anon" := 1 ]}) as Hspec
    by (vm_compute; reflexivity).
  split; [exact Hcode|]. split; [exact Hspec|].
  rewrite Hcode, Hspec. intros Heq.
  apply (f_equal (λ m : gmap string Z, m !! "shmem")) in Heq.
  vm_compute in Heq. discriminate.
Qed.

(** C1, amended: [read_cgroup_stat_file] skips the lines that do not have
    exactly two tokens, wherever they stand, and stops at the first line of
    two tokens whose value is no integer. The mapping it returns holds
    exactly the pairs of the well-formed lines before that line, and of all
    the well-formed lines of the file when there is no such line; of two
    lines with one key the later one counts. *)
Theorem read_cgroup_stat_file_spec (fs : filesystem) (path text : string) :
  read_text fs path = Ok text →
  read_cgroup_stat_file fs path
  = Spec.readKeyedStats (Spec.before_bad_value (Text.lines text))
  ∧ (Forall (λ line, Spec.bad_value line = false) (Text.lines text) →
     read_cgroup_stat_file fs path = Spec.readKeyedStats (Text.lines text))
  ∧ (∀ (before : list string) (line : string) (after : list string),
       Text.lines text = (before ++ line :: after)%list →
       length (Text.split line) ≠ 2%nat →
       read_cgroup_stat_file fs path
       = fst (stat_loop (before ++ after)%list ∅)).
Proof.
  intros Hread. unfold read_cgroup_stat_file. rewrite Hread.
  repeat split.
  - apply stat_loop_before_bad.
  - intros Hgood. rewrite stat_loop_before_bad.
    by rewrite (before_bad_value_all _ Hgood).
  - intros before line after -> Hskip. by rewrite stat_loop_skip.
Qed.

Lemma read_cgroup_stat_file_spec_witness :
  read_cgroup_stat_file fs_v1 (v1_dir web_id +:+ "/memory.stat")
  = Spec.readKeyedStats
      ["cache 4096" +:+ nl; "rss 8192" +:+ nl; "shmem 0" +:+ nl].
Proof.
  destruct (read_cgroup_stat_file_spec fs_v1
              (v1_dir web_id +:+ "/memory.stat")
              ("cache 4096" +:+ nl +:+ "rss 8192" +:+ nl +:+ "shmem 0" +:+ nl))
    as (Hres & _ & _).
  - reflexivity.
  - exact Hres.
Defined.

(** C9: when a line of the file has two tokens and a value that [int]
    rejects, the loop of [read_cgroup_stat_file] is left at the first such
    line by the exception, and the mapping returned holds the entries of
    the lines before it only: no key that only later lines give is in it. *)
Theorem read_cgroup_stat_file_stops (fs : filesystem) (path text : string)
    (before : list string) (bad : string) (after : list string) :
  read_text fs path = Ok text →
  Text.lines text = (before ++ bad :: after)%list →
  Forall (λ line, Spec.bad_value line = false) before →
  Spec.bad_value bad = true →
  (∃ e, snd (stat_loop (Text.lines text) ∅) = Raise e)
  ∧ read_cgroup_stat_file fs path = Spec.readKeyedStats before
  ∧ (∀ key,
       Forall (λ line, ∀ v, Spec.well_formed line ≠ Some (key, v)) before →
       read_cgroup_stat_file fs path !! key = None).
Proof.
  intros Hread Hlines Hbefore Hbad.
  assert (read_cgroup_stat_file fs path = Spec.readKeyedStats before) as Hres.
  { unfold read_cgroup_stat_file. rewrite Hread, Hlines.
    rewrite stat_loop_before_bad.
    by rewrite (before_bad_value_app before after bad Hbefore Hbad). }
  repeat split.
  - rewrite Hlines. by apply stat_loop_raises.
  - exact Hres.
  - intros key Hkey. rewrite Hres. unfold Spec.readKeyedStats.
    by rewrite (foldl_add_line_other before ∅ key Hkey).
Qed.

Lemma read_cgroup_stat_file_stops_witness :
  read_cgroup_stat_file fs_stat_bad (v1_dir web_id +:+ "/memory.stat")
  = Spec.readKeyedStats ["anon 1" +:+ nl]
  ∧ read_cgroup_stat_file fs_stat_bad (v1_dir web_id +:+ "/memory.stat")
    !! "shmem" = None.
Proof.
  destruct (read_cgroup_stat_file_stops fs_stat_bad
              (v1_dir web_id +:+ "/memory.stat") stat_text_bad
              ["anon 1" +:+ nl] ("file x" +:+ nl) ["shmem 3" +:+ nl])
    as (_ & Hres & Hkey).
  - reflexivity.
  - reflexivity.
  - repeat constructor.
  - reflexivity.
  - split; [exact Hres|]. apply Hkey.
    repeat constructor. intros v. vm_compute. discriminate.
Defined.

(** ** The sign of the fields *)

Lemma digit_value_nonneg (c : ascii) (d : Z) :
  PyInt.digit_value c = Some d → 0 <= d.
Proof.
  unfold PyInt.digit_value. cbv zeta. set (n := Text.code c).
  destruct (Z.leb_spec 48 n); cbn; [|done].
  destruct (n <=? 57); intros [= <-]. lia.
Qed.

Lemma digits_nonneg (s : string) (prev : bool) (acc z : Z) :
  0 <= acc → PyInt.digits s prev acc = Some z → 0 <= z.
Proof.
  revert prev acc. induction s as [|c r IH]; intros prev acc Hacc; cbn.
  - destruct prev; [done|]. by intros [= <-].
  - destruct (Ascii.eqb c PyInt.underscore).
    + destruct prev; [done|]. by apply IH.
    + destruct (PyInt.digit_value c) as [d|] eqn:Hd; [|done].
      apply digit_value_nonneg in Hd. apply IH. lia.
Qed.

Lemma magnitude_nonneg (s : string) (n : Z) :
  PyInt.magnitude s = Some n → 0 <= n.
Proof.
  unfold PyInt.magnitude. destruct s as [|c r]; [done|].
  destruct (Ascii.eqb c PyInt.underscore); [done|].
  by apply digits_nonneg.
Qed.

Lemma has_minus_lstrip (sp : ascii → bool) (s : string) :
  Spec.has_minus s = false → Spec.has_minus (Text.lstrip_by sp s) = false.
Proof.
  induction s as [|c r IH]; [done|]. cbn [Text.lstrip_by].
  destruct (sp c); [|done]. cbn. intros [_ Hr]%orb_false_iff. by apply IH.
Qed.

Lemma has_minus_rstrip (sp : ascii → bool) (s : string) :
  Spec.has_minus s = false → Spec.has_minus (Text.rstrip_by sp s) = false.
Proof.
  induction s as [|c r IH]; [done|]. cbn.
  intros [Hc Hr]%orb_false_iff. specialize (IH Hr).
  destruct (Text.rstrip_by sp r); [destruct (sp c)|]; cbn in *;
    rewrite ?Hc; done.
Qed.

Lemma has_minus_strip_by (sp : ascii → bool) (s : string) :
  Spec.has_minus s = false → Spec.has_minus (Text.strip_by sp s) = false.
Proof.
  intros Hs. unfold Text.strip_by. by apply has_minus_rstrip, has_minus_lstrip.
Qed.

(** Without a minus sign [int] gives no negative integer. *)
Lemma int_nonneg (s : string) (z : Z) :
  Spec.has_minus s = false → PyInt.int s = Ok z → 0 <= z.
Proof.
  intros Hs%(has_minus_strip_by PyInt.isspace). unfold PyInt.int.
  destruct (Text.strip_by PyInt.isspace s) as [|c r]; cbn [PyInt.sign].
  - done.
  - cbn in Hs. apply orb_false_iff in Hs as [Hc _].
    destruct (Ascii.eqb c "+"); [|rewrite Hc].
    + destruct (PyInt.magnitude r) as [n|] eqn:Hn; [|done].
      intros [= <-]. by apply magnitude_nonneg in Hn.
    + destruct (PyInt.magnitude (String c r)) as [n|] eqn:Hn; [|done].
      intros [= <-]. by apply magnitude_nonneg in Hn.
Qed.

Lemma has_minus_split (s : string) :
  Spec.has_minus s = false →
  Forall (λ t, Spec.has_minus t = false) (Text.split s).
Proof.
  induction s as [|c r IH]; [constructor|].
  cbn [Spec.has_minus]. intros [Hc Hr]%orb_false_iff. specialize (IH Hr).
  rewrite split_cons.
  destruct (Text.isspace c); [done|].
  destruct (Text.starts_with_space r).
  - constructor; [|done]. cbn. by rewrite Hc.
  - destruct (Text.split r) as [|t ts].
    + constructor; [|done]. cbn. by rewrite Hc.
    + apply Forall_cons in IH as [Ht Hts].
      constructor; [|done]. cbn. by rewrite Hc.
Qed.

Lemma has_minus_lines (s : string) :
  Spec.has_minus s = false →
  Forall (λ line, Spec.has_minus line = false) (Text.lines s).
Proof.
  induction s as [|c r IH]; [constructor|].
  cbn [Spec.has_minus]. intros [Hc Hr]%orb_false_iff. specialize (IH Hr).
  cbn [Text.lines]. destruct (Ascii.eqb c Text.LF).
  - constructor; [|done]. cbn. by rewrite Hc.
  - destruct (Text.lines r) as [|l ls].
    + constructor; [|done]. cbn. by rewrite Hc.
    + apply Forall_cons in IH as [Hl Hls].
      constructor; [|done]. cbn. by rewrite Hc.
Qed.

Lemma stat_line_nonneg (line : string) (stats : gmap string Z) :
  Spec.has_minus line = false →
  map_Forall (λ _ z, 0 <= z) stats →
  map_Forall (λ _ z, 0 <= z) (fst (stat_line line stats)).
Proof.
  intros Hline%has_minus_split Hstats. unfold stat_line.
  rewrite split_strip.
  destruct (Text.split line) as [|key [|value [|]]]; try done.
  apply Forall_cons in Hline as [_ [Hvalue _]%Forall_cons].
  destruct (PyInt.int value) as [v|] eqn:Hv; [|done].
  cbn. apply map_Forall_insert_2; [|done]. by apply (int_nonneg value).
Qed.

Lemma stat_loop_nonneg (lines : list string) (stats : gmap string Z) :
  Forall (λ line, Spec.has_minus line = false) lines →
  map_Forall (λ _ z, 0 <= z) stats →
  map_Forall (λ _ z, 0 <= z) (fst (stat_loop lines stats)).
Proof.
  intros Hlines. revert stats.
  induction Hlines as [|line rest Hline _ IH]; intros stats Hstats; [done|].
  cbn [stat_loop].
  pose proof (stat_line_nonneg line stats Hline Hstats) as Hstep.
  destruct (stat_line line stats) as [stats' [[]|e]]; [by apply IH|done].
Qed.

Section MinusFree.
Variable fs : filesystem.
Hypothesis no_minus : Spec.minus_free fs.

Lemma read_cgroup_file_nonneg (path : string) :
  Spec.nonneg (read_cgroup_file fs path).
Proof.
  unfold read_cgroup_file.
  destruct (read_text fs path) as [content|] eqn:Hread; [|done].
  apply no_minus in Hread. apply (has_minus_strip_by Text.isspace) in Hread.
  fold (Text.strip content) in Hread. cbn.
  destruct (String.eqb _ _); [done|].
  destruct (PyInt.int (Text.strip content)) as [z|] eqn:Hz; [|done].
  cbn. by apply (int_nonneg _ _ Hread).
Qed.

Lemma read_cgroup_stat_file_nonneg (path key : string) :
  Spec.nonneg (read_cgroup_stat_file fs path !! key).
Proof.
  unfold read_cgroup_stat_file.
  destruct (read_text fs path) as [text|] eqn:Hread; [|done].
  apply no_minus, has_minus_lines in Hread.
  pose proof (stat_loop_nonneg _ ∅ Hread (map_Forall_empty _)) as Hall.
  destruct (_ !! key) as [z|] eqn:Hz; [|done].
  by apply (Hall key z).
Qed.
End MinusFree.

Lemma fs_of_minus_free (nodes : list (string * node))
    (globs : list (string * list string)) :
  Forall (λ entry, ∀ text, entry.2 = File text → Spec.has_minus text = false)
    nodes →
  Spec.minus_free (fs_of nodes globs).
Proof.
  intros Hnodes path text. cbn.
  induction Hnodes as [|[p n] rest Hn _ IH]; [done|].
  cbn [assoc]. destruct (String.eqb p path); [|exact IH].
  destruct n; try done. intros [= <-]. by apply Hn.
Qed.

(** C2, as the claim states it, fails: the v1 swap is negative when the
    file of RAM and swap holds less than the file of RAM, and any field is
    negative when its file holds a numeral with a minus sign. *)
Lemma stats_field_negative :
  Stats.swap (get_memory_stats_v1 fs_v1_race web_id) = Some (-104857600)
  ∧ ¬ Forall Spec.nonneg (Stats.fields (get_memory_stats_v1 fs_v1_race web_id))
  ∧ Stats.ram (get_memory_stats_v1 fs_v1_signed web_id) = Some (-5)
  ∧ ¬ Forall Spec.nonneg
        (Stats.fields (get_memory_stats_v1 fs_v1_signed web_id)).
Proof.
  assert (get_memory_stats_v1 fs_v1_race web_id
          = Stats.mk (Some 209715200) (Some (-104857600)) None None
              None None None None) as Hrace by (vm_compute; reflexivity).
  assert (get_memory_stats_v1 fs_v1_signed web_id
          = Stats.mk (Some (-5)) None None None None None None None)
    as Hsigned by (vm_compute; reflexivity).
  rewrite Hrace, Hsigned. cbn.
  split; [done|]. split.
  - intros [_ [Hswap _]%Forall_cons]%Forall_cons. cbn in Hswap. lia.
  - split; [done|].
    intros [Hram _]%Forall_cons. cbn in Hram. lia.
Qed.

(** C2, amended: on a filesystem whose readable files hold no minus sign,
    every field that is read from a file is a non-negative integer or
    absent: the eight fields of the v2 collector, and the fields ram,
    limit, anon, file, shmem and rss of the v1 collector. The swap and the
    swap limit of the v1 collector are differences: each one is
    non-negative or absent exactly when its two operands, if both are
    present, are in order. *)
Theorem memory_stats_nonneg (fs : filesystem) (container_id : string) :
  Spec.minus_free fs →
  Forall Spec.nonneg (Stats.fields (get_memory_stats_v2 fs container_id))
  ∧ (let stats := get_memory_stats_v1 fs container_id in
     let memsw := Spec.v1_read fs container_id "memory.memsw.usage_in_bytes" in
     let memsw_limit :=
       Spec.v1_read fs container_id "memory.memsw.limit_in_bytes" in
     Forall Spec.nonneg
       [Stats.ram stats; Stats.limit stats; Stats.anon stats;
        Stats.file stats; Stats.shmem stats; Stats.rss stats]
     ∧ (Spec.nonneg (Stats.swap stats)
        ↔ ∀ r m, Stats.ram stats = Some r → memsw = Some m → r <= m)
     ∧ (Spec.nonneg (Stats.swaplimit stats)
        ↔ ∀ r m, Stats.limit stats = Some r → memsw_limit = Some m → r <= m)).
Proof.
  intros Hfs.
  pose proof (read_cgroup_file_nonneg fs Hfs) as Hscalar.
  pose proof (read_cgroup_stat_file_nonneg fs Hfs) as Hstat.
  split.
  - unfold get_memory_stats_v2.
    destruct (find_cgroup_path_v2 fs container_id) as [[|c base]|].
    + repeat constructor.
    + unfold Stats.fields. cbn [Stats.ram Stats.swap Stats.limit
        Stats.swaplimit Stats.anon Stats.file Stats.shmem Stats.rss].
      repeat (apply Forall_cons; split); try (by apply Forall_nil);
        try apply Hscalar; try apply Hstat.
      * destruct (path_exists fs _); [apply Hscalar|done].
      * destruct (path_exists fs _); [apply Hscalar|done].
    + repeat constructor.
  - cbv zeta. unfold get_memory_stats_v1, Spec.v1_read.
    cbn [Stats.ram Stats.swap Stats.limit Stats.swaplimit Stats.anon
         Stats.file Stats.shmem Stats.rss].
    split; [|split].
    + repeat (apply Forall_cons; split); try (by apply Forall_nil);
        try apply Hscalar; try apply Hstat.
    + destruct (read_cgroup_file fs (path_join _ "memory.usage_in_bytes"))
        as [r|];
      destruct (read_cgroup_file fs
                  (path_join _ "memory.memsw.usage_in_bytes")) as [m|];
      cbn; split; try done.
      * intros Hle r' m' [= <-] [= <-]. lia.
      * intros Hle. specialize (Hle r m eq_refl eq_refl). lia.
    + destruct (read_cgroup_file fs (path_join _ "memory.limit_in_bytes"))
        as [r|];
      destruct (read_cgroup_file fs
                  (path_join _ "memory.memsw.limit_in_bytes")) as [m|];
      cbn; split; try done.
      * intros Hle r' m' [= <-] [= <-]. lia.
      * intros Hle. specialize (Hle r m eq_refl eq_refl). lia.
Qed.

Lemma memory_stats_nonneg_witness :
  Forall Spec.nonneg (Stats.fields (get_memory_stats_v2 fs_v2 "def456"))
  ∧ Spec.nonneg (Stats.swap (get_memory_stats_v1 fs_v1 web_id)).
Proof.
  split.
  - apply (memory_stats_nonneg fs_v2 "def456").
    apply fs_of_minus_free.
    repeat constructor; intros text [= <-]; reflexivity.
  - apply (memory_stats_nonneg fs_v1 web_id).
    + apply fs_of_minus_free.
      repeat constructor; intros text [= <-]; reflexivity.
    + intros r m Hr Hm. vm_compute in Hr, Hm.
      injection Hr as <-. injection Hm as <-. lia.
Defined.

(** ** The rows of [main] *)

Lemma prefix_short (n : nat) (s : string) :
  (String.length s <= n)%nat → Text.prefix n s = s.
Proof.
  unfold Text.prefix. revert n.
  induction s as [|c r IH]; intros [|n]; cbn; try done; try lia.
  intros Hn. f_equal. apply IH. lia.
Qed.

Lemma float_bound_large : 1024 < float_bound.
Proof. reflexivity. Qed.

(** The byte counts that [format_bytes] renders are an interval. *)
Lemma scalable_range (v : Z) :
  Spec.scalable (Some v) = true ↔ - float_bound < v < float_bound * 1024.
Proof.
  unfold Spec.scalable, float_overflows, division_overflows.
  pose proof float_bound_large as Hlarge. revert Hlarge.
  generalize float_bound. intros bound Hlarge.
  destruct (Z.ltb_spec v 1024).
  - destruct (Z.leb_spec bound (Z.abs v)); cbn; split; try done; lia.
  - destruct (Z.leb_spec (bound * 1024) v); cbn; split; try done; lia.
Qed.

Section RowsProperties.
Variable render : Z → string.
Variable fs : filesystem.
Variable details : bool.

Lemma format_bytes_ok (field : option Z) :
  Spec.scalable field = true →
  format_bytes render field = Ok (bytes_text render field).
Proof.
  destruct field as [v|]; [|done]. cbn.
  by destruct (v <? 1024); intros ->%negb_true_iff.
Qed.


Lemma make_row_ok (cgroup_version : Z) (c : container) :
  Spec.renderable (memory_stats fs cgroup_version (c_id c)) = true →
  ∃ row, make_row render fs cgroup_version details c = Ok row
         ∧ Spec.tagged c row
         ∧ TableRow.ram_raw row
           = Stats.ram (memory_stats fs cgroup_version (c_id c))
         ∧ TableRow.swap_raw row
           = Stats.swap (memory_stats fs cgroup_version (c_id c)).
Proof.
  unfold Spec.renderable, Stats.fields, make_row. cbn [forallb].
  set (stats := memory_stats fs cgroup_version (c_id c)).
  intros H.
  repeat (apply andb_true_iff in H as [?%format_bytes_ok H]).
  repeat match goal with Hf : format_bytes _ _ = _ |- _ => rewrite Hf end.
  destruct details; cbn; eexists; (split; [reflexivity|]); by repeat split.
Qed.

Lemma rows_loop_ok (cgroup_version : Z) (containers : list container)
    (rows : list TableRow.t) :
  Forall (λ c, Spec.renderable (memory_stats fs cgroup_version (c_id c))
               = true) containers →
  ∃ new_rows,
    rows_loop render fs cgroup_version details containers rows
    = Ok (rows ++ new_rows)%list
    ∧ Forall2
        (λ c row,
           Spec.tagged c row
           ∧ TableRow.ram_raw row
             = Stats.ram (memory_stats fs cgroup_version (c_id c))
           ∧ TableRow.swap_raw row
             = Stats.swap (memory_stats fs cgroup_version (c_id c)))
        containers new_rows.
Proof.
  intros Hall. revert rows.
  induction Hall as [|c rest Hc _ IH]; intros rows.
  - exists []. cbn. by rewrite app_nil_r.
  - destruct (make_row_ok cgroup_version c Hc) as (row & Hrow & Htag).
    destruct (IH (rows ++ [row])%list) as (new_rows & Hloop & Hrest).
    exists (row :: new_rows). cbn [rows_loop]. rewrite Hrow. cbn.
    rewrite Hloop, <- app_assoc. split; [done|]. by constructor.
Qed.
End RowsProperties.

(** C7, as the claim states it, fails: the row of a container is tagged
    with the first twelve characters of its id, not with its id; and a
    byte count too large for a float ends the loop with an exception and
    no row at all. *)
Lemma row_id_is_truncated :
  main_rows render_plain fs_v1 false [web]
  = Ok [ {| TableRow.container := "web";
            TableRow.id := "3f4e8a1b9c0d";
            TableRow.ram := "bytes";
            TableRow.ram_raw := Some 104857600;
            TableRow.swap := "bytes";
            TableRow.swap_raw := Some 52428800;
            TableRow.more := None |} ]
  ∧ "3f4e8a1b9c0d" ≠ c_id web
  ∧ ¬ (∀ rows, main_rows render_plain fs_v1 false [web] = Ok rows →
               Forall2 Spec.tagged_with_id [web] rows)
  ∧ main_rows render_plain fs_v1_huge false [web] = Raise OverflowError.
Proof.
  assert (main_rows render_plain fs_v1 false [web]
          = Ok [ {| TableRow.container := "web";
                    TableRow.id := "3f4e8a1b9c0d";
                    TableRow.ram := "bytes";
                    TableRow.ram_raw := Some 104857600;
                    TableRow.swap := "bytes";
                    TableRow.swap_raw := Some 52428800;
                    TableRow.more := None |} ]) as Hrows
    by (vm_compute; reflexivity).
  split; [exact Hrows|]. split; [discriminate|].
  split; [|vm_compute; reflexivity].
  intros Hclaim. specialize (Hclaim _ Hrows).
  apply Forall2_cons in Hclaim as [[_ Hid] _]. discriminate Hid.
Qed.

(** C7, amended: when every byte count read for the containers can be
    scaled by [format_bytes], the loop of [main] returns exactly one row
    for each container of its input, in the order of the input; each row
    carries the name of its container and the first twelve characters of
    its id, which is the id itself when it has at most twelve characters,
    and the RAM and swap of that container. *)
Theorem main_rows_spec (render : Z → string) (fs : filesystem)
    (details : bool) (containers : list container) :
  Forall (λ c, Spec.renderable
                 (memory_stats fs (get_cgroup_version fs) (c_id c)) = true)
    containers →
  ∃ rows,
    main_rows render fs details containers = Ok rows
    ∧ length rows = length containers
    ∧ Forall2
        (λ c row,
           Spec.tagged c row
           ∧ ((String.length (c_id c) <= 12)%nat → Spec.tagged_with_id c row)
           ∧ TableRow.ram_raw row
             = Stats.ram (memory_stats fs (get_cgroup_version fs) (c_id c))
           ∧ TableRow.swap_raw row
             = Stats.swap (memory_stats fs (get_cgroup_version fs) (c_id c)))
        containers rows.
Proof.
  intros Hall. unfold main_rows.
  destruct (rows_loop_ok render fs details _ containers [] Hall)
    as (rows & Hloop & Hrows).
  exists rows. split; [exact Hloop|]. split.
  - symmetry. by eapply Forall2_length.
  - eapply Forall2_impl; [exact Hrows|].
    intros c row ([Hname Hid] & Hram & Hswap). repeat split; try done.
    unfold Spec.tagged_with_id in *. by rewrite Hid, prefix_short.
Qed.

Lemma main_rows_spec_witness :
  ∃ rows,
    main_rows render_plain fs_v1 true [web; db] = Ok rows
    ∧ length rows = 2%nat
    ∧ (TableRow.container <$> rows) = ["web"; "db"]
    ∧ (TableRow.id <$> rows) = ["3f4e8a1b9c0d"; "def456"].
Proof.
  destruct (main_rows_spec render_plain fs_v1 true [web; db])
    as (rows & Hmain & Hlen & Htags).
  - repeat constructor.
  - exists rows. split; [exact Hmain|]. split; [exact Hlen|].
    apply Forall2_cons_inv_l in Htags
      as (r1 & rest & ([Hn1 Hi1] & _) & Htags & ->).
    apply Forall2_cons_inv_l in Htags
      as (r2 & rest' & ([Hn2 Hi2] & _) & Htags & ->).
    apply Forall2_nil_inv_l in Htags as ->.
    cbn. by rewrite Hn1, Hn2, Hi1, Hi2.
Defined.

(** * Further properties *)

(** ** The keyed stat file as a dictionary *)

Lemma well_formed_not_bad (line : string) (entry : string * Z) :
  Spec.well_formed line = Some entry → Spec.bad_value line = false.
Proof.
  unfold Spec.well_formed, Spec.bad_value.
  destruct (Text.split line) as [|key [|value [|]]]; try done.
  by destruct (PyInt.int value).
Qed.

Lemma before_bad_value_app_good (before after : list string) :
  Forall (λ line, Spec.bad_value line = false) before →
  Spec.before_bad_value (before ++ after)
  = (before ++ Spec.before_bad_value after)%list.
Proof.
  induction 1 as [|line rest Hline _ IH]; [done|].
  cbn. by rewrite Hline, IH.
Qed.

Lemma before_bad_value_Forall (P : string → Prop) (lines : list string) :
  Forall P lines → Forall P (Spec.before_bad_value lines).
Proof.
  induction 1 as [|line rest Hline _ IH]; [constructor|].
  cbn. destruct (Spec.bad_value line); by constructor.
Qed.

Lemma foldl_add_line_keeps (lines : list string) (stats : gmap string Z)
    (key : string) :
  is_Some (stats !! key) →
  is_Some (foldl Spec.add_line stats lines !! key).
Proof.
  revert stats. induction lines as [|line rest IH]; intros stats Hkey; [done|].
  cbn [foldl]. apply IH. unfold Spec.add_line.
  destruct (Spec.well_formed line) as [[k v]|]; [|done].
  destruct (decide (k = key)) as [->|Hne].
  - rewrite lookup_insert_eq. eauto.
  - by rewrite lookup_insert_ne.
Qed.

Lemma foldl_add_line_none (lines : list string) (stats : gmap string Z)
    (key : string) :
  foldl Spec.add_line stats lines !! key = None →
  Forall (λ line, ∀ v, Spec.well_formed line ≠ Some (key, v)) lines.
Proof.
  revert stats. induction lines as [|line rest IH]; intros stats Hnone;
    [constructor|].
  cbn [foldl] in Hnone. constructor; [|by eapply IH].
  intros v Hwf.
  assert (is_Some (foldl Spec.add_line (Spec.add_line stats line) rest !! key))
    as [z Hz]; [|congruence].
  apply foldl_add_line_keeps. unfold Spec.add_line. rewrite Hwf.
  rewrite lookup_insert_eq. eauto.
Qed.

Lemma read_cgroup_stat_file_text (fs : filesystem) (path text : string) :
  read_text fs path = Ok text →
  read_cgroup_stat_file fs path
  = foldl Spec.add_line ∅ (Spec.before_bad_value (Text.lines text)).
Proof.
  intros Hread. unfold read_cgroup_stat_file. rewrite Hread.
  apply stat_loop_before_bad.
Qed.

(** X1: of the well-formed lines that give one key, the last one before
    the first line with a bad value decides the value of the key. *)
Theorem stat_last_line_wins (fs : filesystem) (path text : string)
    (before : list string) (line : string) (after : list string)
    (key : string) (v : Z) :
  read_text fs path = Ok text →
  Text.lines text = (before ++ line :: after)%list →
  Forall (λ l, Spec.bad_value l = false) before →
  Spec.well_formed line = Some (key, v) →
  Forall (λ l, ∀ v', Spec.well_formed l ≠ Some (key, v'))
    (Spec.before_bad_value after) →
  read_cgroup_stat_file fs path !! key = Some v.
Proof.
  intros Hread Hlines Hbefore Hline Hafter.
  rewrite (read_cgroup_stat_file_text fs path text Hread), Hlines.
  rewrite (before_bad_value_app_good before _ Hbefore).
  cbn [Spec.before_bad_value].
  rewrite (well_formed_not_bad line _ Hline).
  rewrite foldl_app. cbn [foldl].
  rewrite foldl_add_line_other by done.
  unfold Spec.add_line at 1. rewrite Hline. apply lookup_insert_eq.
Qed.

Lemma stat_last_line_wins_witness :
  read_cgroup_stat_file
    (fs_of [("/m", File ("rss 1" +:+ nl +:+ "x" +:+ nl +:+ "rss 2" +:+ nl
                         +:+ "anon 7" +:+ nl +:+ "rss y" +:+ nl
                         +:+ "rss 3" +:+ nl))] [])
    "/m" !! "rss" = Some 2.
Proof.
  apply (stat_last_line_wins _ "/m"
           ("rss 1" +:+ nl +:+ "x" +:+ nl +:+ "rss 2" +:+ nl
            +:+ "anon 7" +:+ nl +:+ "rss y" +:+ nl +:+ "rss 3" +:+ nl)
           ["rss 1" +:+ nl; "x" +:+ nl] ("rss 2" +:+ nl)
           ["anon 7" +:+ nl; "rss y" +:+ nl; "rss 3" +:+ nl]).
  - reflexivity.
  - reflexivity.
  - repeat constructor.
  - reflexivity.
  - repeat constructor. intros v'. vm_compute. discriminate.
Defined.

(** X2: a key is missing from the mapping exactly when no well-formed line
    before the first line with a bad value gives it; in particular every
    key is missing when the file cannot be read. *)
Theorem stat_missing_key (fs : filesystem) (path key : string) :
  (∀ text, read_text fs path = Ok text →
     (read_cgroup_stat_file fs path !! key = None
      ↔ Forall (λ l, ∀ v, Spec.well_formed l ≠ Some (key, v))
          (Spec.before_bad_value (Text.lines text))))
  ∧ (∀ e, read_text fs path = Raise e →
          read_cgroup_stat_file fs path !! key = None).
Proof.
  split.
  - intros text Hread.
    rewrite (read_cgroup_stat_file_text fs path text Hread). split.
    + apply foldl_add_line_none.
    + intros Hnone. by rewrite foldl_add_line_other.
  - intros e Hread. unfold read_cgroup_stat_file. by rewrite Hread.
Qed.

(** A token of [split] is not empty and holds no white space. *)
Lemma split_tokens_clean (s : string) :
  Forall (λ t, t ≠ EmptyString ∧ has_space t = false) (Text.split s).
Proof.
  induction s as [|c r IH]; [constructor|].
  rewrite split_cons.
  destruct (Text.isspace c) eqn:Hc; [done|].
  destruct (Text.starts_with_space r).
  - constructor; [|done]. cbn. by rewrite Hc.
  - destruct (Text.split r) as [|t ts].
    + constructor; [|done]. cbn. by rewrite Hc.
    + apply Forall_cons in IH as [[_ Ht] Hts].
      constructor; [|done]. cbn. by rewrite Hc.
Qed.

Lemma add_line_clean_keys (stats : gmap string Z) (line : string) :
  map_Forall (λ key _, key ≠ EmptyString ∧ has_space key = false) stats →
  map_Forall (λ key _, key ≠ EmptyString ∧ has_space key = false)
    (Spec.add_line stats line).
Proof.
  intros Hstats. unfold Spec.add_line, Spec.well_formed.
  pose proof (split_tokens_clean line) as Htokens.
  destruct (Text.split line) as [|key [|value [|]]]; try done.
  destruct (PyInt.int value); [|done].
  apply map_Forall_insert_2; [|done].
  by apply Forall_cons in Htokens as [? _].
Qed.

(** X3: every key of the mapping that [read_cgroup_stat_file] returns is a
    token: it is not empty and holds no white space. *)
Theorem stat_keys_are_tokens (fs : filesystem) (path key : string) (v : Z) :
  read_cgroup_stat_file fs path !! key = Some v →
  key ≠ EmptyString ∧ has_space key = false.
Proof.
  unfold read_cgroup_stat_file.
  destruct (read_text fs path) as [text|]; [|done].
  rewrite stat_loop_before_bad.
  generalize (Spec.before_bad_value (Text.lines text)). intros lines.
  assert (map_Forall (λ key _, key ≠ EmptyString ∧ has_space key = false)
            (foldl Spec.add_line ∅ lines)) as Hall.
  { generalize (map_Forall_empty
                  (λ (key : string) (_ : Z),
                     key ≠ EmptyString ∧ has_space key = false)
                  (M := gmap string)).
    generalize (∅ : gmap string Z).
    induction lines as [|line rest IH]; intros stats Hstats; [done|].
    cbn [foldl]. by apply IH, add_line_clean_keys. }
  intros Hkey. exact (Hall key v Hkey).
Qed.

Lemma stat_keys_are_tokens_witness :
  "rss" ≠ EmptyString ∧ has_space "rss" = false.
Proof.
  apply (stat_keys_are_tokens fs_v1 (v1_dir web_id +:+ "/memory.stat")
           "rss" 8192).
  vm_compute. reflexivity.
Defined.

(** ** Rows when nothing is known, and rows of 64-bit counters *)

Lemma read_cgroup_file_text (fs : filesystem) (path : string) :
  read_cgroup_file fs path
  = match read_text fs path with
    | Ok text => scalar_of_text text
    | Raise _ => None
    end.
Proof.
  unfold read_cgroup_file, scalar_of_text.
  destruct (read_text fs path) as [text|]; [|done]. cbn.
  destruct (String.eqb _ _); [done|].
  by destruct (PyInt.int (Text.strip text)).
Qed.

Lemma memory_stats_unreadable (fs : filesystem) (cgroup_version : Z)
    (container_id : string) :
  unreadable fs →
  memory_stats fs cgroup_version container_id = Stats.absent.
Proof.
  intros Hfs.
  assert (∀ path, read_cgroup_file fs path = None) as Hscalar.
  { intros path. rewrite read_cgroup_file_text.
    by destruct (Hfs path) as [e ->]. }
  assert (∀ path, read_cgroup_stat_file fs path = ∅) as Hstat.
  { intros path. unfold read_cgroup_stat_file.
    by destruct (Hfs path) as [e ->]. }
  unfold memory_stats, get_memory_stats_v1, get_memory_stats_v2.
  destruct (cgroup_version =? 1).
  - by rewrite !Hscalar, Hstat.
  - destruct (find_cgroup_path_v2 fs container_id) as [[|c base]|];
      [done| |done].
    rewrite !Hscalar, Hstat. by do 2 destruct (path_exists fs _).
Qed.

Lemma memory_stats_no_scope (fs : filesystem) (container_id : string) :
  path_exists fs "/sys/fs/cgroup/cgroup.controllers" = true →
  glob fs ("/sys/fs/cgroup/**/docker-" +:+ container_id +:+ ".scope") = [] →
  memory_stats fs (get_cgroup_version fs) container_id = Stats.absent.
Proof.
  intros Hv2 Hglob%find_cgroup_path_v2_none.
  unfold memory_stats, get_cgroup_version, get_memory_stats_v2.
  by rewrite Hv2, Hglob.
Qed.

Lemma scalable_small (field : option Z) :
  (∀ z, field = Some z → - 2 ^ 64 < z < 2 ^ 64) →
  Spec.scalable field = true.
Proof.
  destruct field as [z|]; [|done]. intros Hz. specialize (Hz z eq_refl).
  apply scalable_range.
  assert (2 ^ 64 < float_bound) as Hbound by reflexivity.
  revert Hbound. generalize float_bound. intros bound Hbound. lia.
Qed.

Lemma counters64_scalar (fs : filesystem) (path : string) (z : Z) :
  counters64 fs → read_cgroup_file fs path = Some z → 0 <= z < 2 ^ 64.
Proof.
  intros Hfs. rewrite read_cgroup_file_text.
  destruct (read_text fs path) as [text|] eqn:Hread; [|done].
  by apply (Hfs path text Hread).
Qed.

Lemma counters64_stat (fs : filesystem) (path key : string) (z : Z) :
  counters64 fs →
  read_cgroup_stat_file fs path !! key = Some z → 0 <= z < 2 ^ 64.
Proof.
  intros Hfs. unfold read_cgroup_stat_file.
  destruct (read_text fs path) as [text|] eqn:Hread; [|done].
  destruct (Hfs path text Hread) as [_ Hstat]. apply Hstat.
Qed.

Lemma counters64_renderable (fs : filesystem) (cgroup_version : Z)
    (container_id : string) :
  counters64 fs →
  Spec.renderable (memory_stats fs cgroup_version container_id) = true.
Proof.
  intros Hfs.
  assert (∀ path z, read_cgroup_file fs path = Some z → - 2 ^ 64 < z < 2 ^ 64)
    as Hscalar.
  { intros path z Hz. apply (counters64_scalar fs path z Hfs) in Hz. lia. }
  assert (∀ path key z, read_cgroup_stat_file fs path !! key = Some z →
                        - 2 ^ 64 < z < 2 ^ 64) as Hstat.
  { intros path key z Hz. apply (counters64_stat fs path key z Hfs) in Hz.
    lia. }
  unfold Spec.renderable, Stats.fields, memory_stats.
  destruct (cgroup_version =? 1).
  - unfold get_memory_stats_v1.
    cbn [Stats.ram Stats.swap Stats.limit Stats.swaplimit Stats.anon
         Stats.file Stats.shmem Stats.rss forallb].
    repeat (apply andb_true_iff; split); try done;
      try (apply scalable_small; intros z Hz; by eauto).
    + apply scalable_small.
      destruct (read_cgroup_file fs (path_join _ "memory.usage_in_bytes"))
        as [r|] eqn:Hr; [|done].
      destruct (read_cgroup_file fs
                  (path_join _ "memory.memsw.usage_in_bytes"))
        as [m|] eqn:Hm; [|done].
      intros z [= <-].
      apply (counters64_scalar fs _ _ Hfs) in Hr, Hm. lia.
    + apply scalable_small.
      destruct (read_cgroup_file fs
                  (path_join _ "memory.memsw.limit_in_bytes"))
        as [m|] eqn:Hm; [|done].
      destruct (read_cgroup_file fs (path_join _ "memory.limit_in_bytes"))
        as [r|] eqn:Hr; [|done].
      intros z [= <-].
      apply (counters64_scalar fs _ _ Hfs) in Hr, Hm. lia.
  - unfold get_memory_stats_v2.
    destruct (find_cgroup_path_v2 fs container_id) as [[|c base]|];
      [done| |done].
    cbn [Stats.ram Stats.swap Stats.limit Stats.swaplimit Stats.anon
         Stats.file Stats.shmem Stats.rss forallb].
    repeat (apply andb_true_iff; split); try done;
      try (apply scalable_small; intros z Hz; by eauto).
    + destruct (path_exists fs _); [|done].
      apply scalable_small; intros z Hz; by eauto.
    + destruct (path_exists fs _); [|done].
      apply scalable_small; intros z Hz; by eauto.
Qed.

Lemma counters64_fs_of (nodes : list (string * node))
    (globs : list (string * list string)) :
  Forall (λ entry, ∀ text, entry.2 = File text → text_counters64 text) nodes →
  counters64 (fs_of nodes globs).
Proof.
  intros Hnodes path text. cbn.
  induction Hnodes as [|[p n] rest Hn _ IH]; [done|].
  cbn [assoc]. destruct (String.eqb p path); [|exact IH].
  destruct n; try done. intros [= <-]. by apply Hn.
Qed.

Section MoreRows.
Variable render : Z → string.
Variable fs : filesystem.
Variable details : bool.

Lemma make_row_absent (cgroup_version : Z) (c : container) :
  memory_stats fs cgroup_version (c_id c) = Stats.absent →
  make_row render fs cgroup_version details c = Ok (na_row details c).
Proof.
  intros Habsent. unfold make_row. rewrite Habsent.
  by destruct details.
Qed.

Lemma rows_loop_absent (cgroup_version : Z) (containers : list container)
    (rows : list TableRow.t) :
  Forall (λ c, memory_stats fs cgroup_version (c_id c) = Stats.absent)
    containers →
  rows_loop render fs cgroup_version details containers rows
  = Ok (rows ++ (na_row details <$> containers))%list.
Proof.
  intros Hall. revert rows.
  induction Hall as [|c rest Hc _ IH]; intros rows; cbn.
  - by rewrite app_nil_r.
  - rewrite (make_row_absent cgroup_version c Hc). cbn.
    by rewrite IH, <- app_assoc.
Qed.

(** X4: on a host where no file can be read, and on a cgroup v2 host
    where no scope directory matches a container, [main] builds for each
    container the row of its name and short id with N/A in every column,
    and raises nothing. *)
Theorem main_rows_not_available (containers : list container) :
  unreadable fs
  ∨ (path_exists fs "/sys/fs/cgroup/cgroup.controllers" = true
     ∧ Forall
         (λ c, glob fs ("/sys/fs/cgroup/**/docker-" +:+ c_id c +:+ ".scope")
               = []) containers) →
  main_rows render fs details containers
  = Ok (na_row details <$> containers).
Proof.
  intros Hcase. unfold main_rows.
  rewrite rows_loop_absent; [done|].
  destruct Hcase as [Hfs|[Hv2 Hglob]].
  - apply Forall_forall. intros c _. by apply memory_stats_unreadable.
  - eapply Forall_impl; [exact Hglob|].
    intros c Hc. by apply memory_stats_no_scope.
Qed.

(** X5: on a host whose readable files hold unsigned 64-bit counters
    only, the loop of [main] raises nothing: it returns one row for each
    container. *)
Theorem main_rows_counters64 (containers : list container) :
  counters64 fs →
  ∃ rows, main_rows render fs details containers = Ok rows
          ∧ length rows = length containers.
Proof.
  intros Hfs. unfold main_rows.
  destruct (rows_loop_ok render fs details (get_cgroup_version fs)
              containers []) as (rows & Hloop & Hrows).
  - apply Forall_forall. intros c _. by apply counters64_renderable.
  - exists rows. split; [done|]. symmetry. by eapply Forall2_length.
Qed.

End MoreRows.

Lemma main_rows_not_available_witness :
  main_rows render_plain fs_v2 true [web]
  = Ok [na_row true web].
Proof.
  apply (main_rows_not_available render_plain fs_v2 true [web]).
  right. split; [reflexivity|]. repeat constructor.
Defined.

Lemma fs_v1_counters64 : counters64 fs_v1.
Proof.
  apply counters64_fs_of.
  repeat apply List.Forall_cons; try apply List.Forall_nil;
    intros text Htext; cbn in Htext;
    (discriminate Htext
     || (injection Htext as <-; split;
         [ intros z Hz; vm_compute in Hz;
           first [discriminate Hz | injection Hz as <-; lia]
         | apply (bool_decide_unpack _); vm_compute; exact I ])).
Qed.

Lemma main_rows_counters64_witness :
  ∃ rows, main_rows render_plain fs_v1 true [web; db] = Ok rows
          ∧ length rows = 2%nat.
Proof.
  apply (main_rows_counters64 render_plain fs_v1 true [web; db]).
  exact fs_v1_counters64.
Defined.

(** ** The list of the containers *)

Example splitlines_ex1 :
  Docker.splitlines ("a" +:+ nl +:+ nl +:+ "b" +:+ String Docker.CR nl +:+ "c")
  = ["a"; ""; "b"; "c"].
Proof. reflexivity. Qed.
Example splitlines_ex2 : Docker.splitlines ("a" +:+ nl) = ["a"].
Proof. reflexivity. Qed.
Example splitlines_ex3 : Docker.splitlines nl = [""].
Proof. reflexivity. Qed.
Example split1_ex1 : Docker.split1 "a  b c  " = ["a"; "b c  "].
Proof. reflexivity. Qed.
Example split1_ex2 : Docker.split1 " a " = ["a"].
Proof. reflexivity. Qed.
Example split1_ex3 : Docker.split1 "   " = [].
Proof. reflexivity. Qed.
Example get_all_containers_ex :
  Docker.get_all_containers (Docker.Completed (Docker.ps_output [web; db]))
  = Docker.Returned [web; db].
Proof. vm_compute. reflexivity. Qed.

(** ** Lemmas on the text functions *)

Lemma lstrip_head (sp : ascii → bool) (s : string) (c : ascii) (r : string) :
  Text.lstrip_by sp s = String c r → sp c = false.
Proof.
  induction s as [|d t IH]; [done|]. cbn.
  destruct (sp d) eqn:Hd; [exact IH|]. by intros [= <- _].
Qed.

Lemma lstrip_fixed (sp : ascii → bool) (c : ascii) (r : string) :
  sp c = false → Text.lstrip_by sp (String c r) = String c r.
Proof. intros Hc. cbn. by rewrite Hc. Qed.

Lemma lstrip_empty_split (s : string) :
  Text.lstrip_by Text.isspace s = EmptyString ↔ Text.split s = [].
Proof.
  induction s as [|c r IH]; [done|].
  rewrite split_cons. cbn [Text.lstrip_by].
  destruct (Text.isspace c); [exact IH|].
  split; [done|].
  destruct (Text.starts_with_space r); [done|].
  by destruct (Text.split r).
Qed.

Lemma append_cons (c : ascii) (a b : string) :
  String c a +:+ b = String c (a +:+ b).
Proof. reflexivity. Qed.

Lemma append_nil (b : string) : EmptyString +:+ b = b.
Proof. reflexivity. Qed.

Lemma append_assoc (a b c : string) : (a +:+ b) +:+ c = a +:+ b +:+ c.
Proof.
  induction a as [|d a IH]; [done|]. by rewrite !append_cons, IH.
Qed.

Lemma rstrip_cons (sp : ascii → bool) (c : ascii) (r : string) :
  Text.rstrip_by sp r ≠ EmptyString →
  Text.rstrip_by sp (String c r) = String c (Text.rstrip_by sp r).
Proof. cbn. by destruct (Text.rstrip_by sp r). Qed.

Lemma rstrip_app_nonempty (sp : ascii → bool) (a b : string) :
  Text.rstrip_by sp b ≠ EmptyString →
  Text.rstrip_by sp (a +:+ b) = a +:+ Text.rstrip_by sp b.
Proof.
  intros Hb. induction a as [|c a IH]; [done|].
  rewrite !append_cons. rewrite rstrip_cons; rewrite IH; [done|].
  destruct a; [done|]. by rewrite append_cons.
Qed.

Lemma rstrip_app_space (sp : ascii → bool) (a b : string) :
  Text.rstrip_by sp b = EmptyString →
  Text.rstrip_by sp (a +:+ b) = Text.rstrip_by sp a.
Proof.
  intros Hb. induction a as [|c a IH]; [done|].
  rewrite append_cons. cbn [Text.rstrip_by]. by rewrite IH.
Qed.

Lemma rstrip_idem (sp : ascii → bool) (s : string) :
  Text.rstrip_by sp (Text.rstrip_by sp s) = Text.rstrip_by sp s.
Proof.
  induction s as [|c r IH]; [done|]. cbn [Text.rstrip_by].
  destruct (Text.rstrip_by sp r) as [|d t] eqn:Hr.
  - destruct (sp c) eqn:Hc; [done|]. cbn. by rewrite Hc.
  - rewrite rstrip_cons; by rewrite IH.
Qed.

Lemma rstrip_suffix (sp : ascii → bool) (a b : string) :
  Text.rstrip_by sp (a +:+ b) = a +:+ b → b ≠ EmptyString →
  Text.rstrip_by sp b = b.
Proof.
  intros Hab Hb. induction a as [|c a IH]; [done|].
  apply IH. rewrite append_cons in Hab. cbn [Text.rstrip_by] in Hab.
  destruct (Text.rstrip_by sp (a +:+ b)) as [|d t] eqn:Hr.
  - destruct (sp c); [done|]. injection Hab as Hab.
    destruct a; [by rewrite append_nil in Hab|by rewrite append_cons in Hab].
  - by injection Hab.
Qed.

Lemma span_token_app (s : string) :
  (Docker.span_token s).1 +:+ (Docker.span_token s).2 = s.
Proof.
  induction s as [|c r IH]; [done|]. cbn.
  destruct (Text.isspace c); [done|].
  destruct (Docker.span_token r) as [token rest]. cbn in *.
  by rewrite append_cons, IH.
Qed.

Lemma span_token_no_space (s : string) :
  has_space (Docker.span_token s).1 = false.
Proof.
  induction s as [|c r IH]; [done|]. cbn.
  destruct (Text.isspace c) eqn:Hc; [done|].
  destruct (Docker.span_token r) as [token rest]. cbn in *.
  by rewrite Hc.
Qed.

Lemma span_token_rest (s : string) :
  Text.starts_with_space (Docker.span_token s).2 = true.
Proof.
  induction s as [|c r IH]; [done|]. cbn.
  destruct (Text.isspace c) eqn:Hc; [done|].
  by destruct (Docker.span_token r) as [token rest].
Qed.

Lemma span_token_clean (token rest : string) :
  has_space token = false → Text.starts_with_space rest = true →
  Docker.span_token (token +:+ rest) = (token, rest).
Proof.
  intros Htoken Hrest. induction token as [|c t IH].
  - rewrite append_nil. destruct rest as [|d r]; [done|].
    cbn in *. by rewrite Hrest.
  - cbn in Htoken. apply orb_false_iff in Htoken as [Hc Ht].
    rewrite append_cons. cbn. rewrite Hc. by rewrite (IH Ht).
Qed.

Lemma lstrip_app (s : string) :
  ∃ spaces, s = spaces +:+ Text.lstrip_by Text.isspace s.
Proof.
  induction s as [|c r [spaces IH]]; [by exists EmptyString|].
  cbn. destruct (Text.isspace c).
  - exists (String c spaces). by rewrite append_cons, <- IH.
  - by exists EmptyString.
Qed.

(** The first token of [split1] is the first token of [split]. *)
Lemma split_span (c : ascii) (r : string) :
  Text.isspace c = false →
  Text.split (String c r)
  = (Docker.span_token (String c r)).1
    :: Text.split (Docker.span_token (String c r)).2.
Proof.
  revert c. induction r as [|d r IH]; intros c Hc.
  - cbn. by rewrite Hc.
  - rewrite split_cons, Hc.
    cbn [Docker.span_token Text.starts_with_space]. rewrite Hc.
    destruct (Text.isspace d) eqn:Hd.
    + done.
    + rewrite (IH d Hd). cbn [Docker.span_token]. rewrite Hd.
      by destruct (Docker.span_token r).
Qed.

Lemma split1_split (s : string) :
  match Text.split s with
  | [] => Docker.split1 s = []
  | [token] => Docker.split1 s = [token]
  | token :: _ :: _ =>
      ∃ rest, Docker.split1 s = [token; rest]
              ∧ Text.starts_with_space rest = false
  end.
Proof.
  unfold Docker.split1. rewrite <- (split_lstrip s).
  destruct (Text.lstrip_by Text.isspace s) as [|c r] eqn:Hbody; [done|].
  apply lstrip_head in Hbody. rewrite (split_span c r Hbody).
  destruct (Docker.span_token (String c r)) as [token rest]. cbn [fst snd].
  destruct (Text.split rest) as [|t ts] eqn:Hrest.
  - apply lstrip_empty_split in Hrest. by rewrite Hrest.
  - destruct (Text.lstrip_by Text.isspace rest) as [|d r'] eqn:Hr.
    + apply lstrip_empty_split in Hr. congruence.
    + exists (String d r'). split; [done|]. cbn. by eapply lstrip_head.
Qed.


Lemma boundary_is_space (c : ascii) :
  Docker.is_boundary c = true → Text.isspace c = true.
Proof.
  unfold Docker.is_boundary, Text.isspace. cbv zeta.
  set (n := Text.code c). intros H. codes.
Qed.

Lemma no_space_no_boundary (s : string) :
  has_space s = false → Docker.has_boundary s = false.
Proof.
  induction s as [|c r IH]; [done|]. cbn.
  intros [Hc Hr]%orb_false_iff. rewrite (IH Hr), orb_false_r.
  destruct (Docker.is_boundary c) eqn:Hb; [|done].
  apply boundary_is_space in Hb. congruence.
Qed.

Lemma has_boundary_app (a b : string) :
  Docker.has_boundary (a +:+ b)
  = Docker.has_boundary a || Docker.has_boundary b.
Proof.
  induction a as [|c a IH]; [done|].
  rewrite append_cons. cbn. by rewrite IH, orb_assoc.
Qed.

Lemma splitlines_single (line : string) :
  Docker.has_boundary line = false → line ≠ EmptyString →
  Docker.splitlines line = [line].
Proof.
  induction line as [|c r IH]; [done|]. cbn.
  intros [Hc Hr]%orb_false_iff _. rewrite Hc.
  destruct r as [|d r]; [done|]. by rewrite IH.
Qed.

Lemma splitlines_line (line rest : string) :
  Docker.has_boundary line = false →
  Docker.splitlines (line +:+ String Text.LF rest)
  = line :: Docker.splitlines rest.
Proof.
  induction line as [|c r IH].
  - intros _. rewrite append_nil. by destruct rest.
  - cbn [Docker.has_boundary]. intros [Hc Hr]%orb_false_iff.
    rewrite append_cons. cbn [Docker.splitlines]. by rewrite Hc, (IH Hr).
Qed.

Section CleanContainer.
Variable c : container.
Hypothesis clean_c_id : Docker.clean_id (c_id c) = true.
Hypothesis clean_c_name : Docker.clean_name (c_name c) = true.

Lemma clean_id_head :
  ∃ d r, c_id c = String d r ∧ Text.isspace d = false
         ∧ has_space (c_id c) = false.
Proof.
  unfold Docker.clean_id in clean_c_id.
  apply andb_true_iff in clean_c_id as [Hne Hsp%negb_true_iff].
  destruct (c_id c) as [|d r]; [done|].
  exists d, r. repeat split; [|done].
  cbn in Hsp. by apply orb_false_iff in Hsp as [? _].
Qed.

Lemma clean_name_head :
  ∃ d r, c_name c = String d r ∧ Text.isspace d = false
         ∧ Text.rstrip_by Text.isspace (c_name c) = c_name c
         ∧ Docker.has_boundary (c_name c) = false.
Proof.
  unfold Docker.clean_name in clean_c_name.
  apply andb_true_iff in clean_c_name as [[Hst%negb_true_iff Hr]%andb_true_iff
                                            Hb%negb_true_iff].
  apply String.eqb_eq in Hr.
  destruct (c_name c) as [|d r]; [done|]. by exists d, r.
Qed.

Lemma ps_line_head :
  ∃ d r, Docker.ps_line c = String d r ∧ Text.isspace d = false.
Proof.
  destruct clean_id_head as (d & r & Hid & Hd & _).
  unfold Docker.ps_line. rewrite Hid, append_cons. eauto.
Qed.

Lemma ps_line_rstrip :
  Text.rstrip_by Text.isspace (Docker.ps_line c) = Docker.ps_line c.
Proof.
  destruct clean_name_head as (d & r & Hname & _ & Hr & _).
  unfold Docker.ps_line.
  assert (Text.rstrip_by Text.isspace (String " " (c_name c))
          = String " " (c_name c)) as Hsp.
  { rewrite rstrip_cons; rewrite Hr; [done|]. by rewrite Hname. }
  rewrite rstrip_app_nonempty; by rewrite Hsp.
Qed.

Lemma ps_line_strip : Text.strip (Docker.ps_line c) = Docker.ps_line c.
Proof.
  unfold Text.strip, Text.strip_by.
  destruct ps_line_head as (d & r & Hline & Hd).
  rewrite Hline, (lstrip_fixed _ d r Hd), <- Hline. apply ps_line_rstrip.
Qed.

Lemma ps_line_no_boundary : Docker.has_boundary (Docker.ps_line c) = false.
Proof.
  destruct clean_id_head as (_ & _ & _ & _ & Hid).
  destruct clean_name_head as (_ & _ & _ & _ & _ & Hname).
  unfold Docker.ps_line. rewrite has_boundary_app. cbn.
  by rewrite (no_space_no_boundary _ Hid), Hname.
Qed.

Lemma ps_line_split1 :
  Docker.split1 (Docker.ps_line c) = [c_id c; c_name c].
Proof.
  unfold Docker.split1.
  destruct ps_line_head as (d & r & Hline & Hd).
  rewrite Hline, (lstrip_fixed _ d r Hd), <- Hline.
  destruct clean_id_head as (_ & _ & _ & _ & Hid).
  destruct clean_name_head as (e & t & Hname & He & _).
  unfold Docker.ps_line.
  rewrite (span_token_clean (c_id c) (String " " (c_name c)) Hid eq_refl).
  cbn [Text.lstrip_by]. change (Text.isspace " ") with true. cbv iota.
  by rewrite Hname, (lstrip_fixed _ e t He).
Qed.
End CleanContainer.

Lemma ps_output_lines (c : container) (rest : list container) :
  Forall Docker.clean (c :: rest) →
  Docker.splitlines
    (Text.rstrip_by Text.isspace (Docker.ps_output (c :: rest)))
  = Docker.ps_line <$> (c :: rest).
Proof.
  revert c. induction rest as [|c2 rest IH]; intros c Hall.
  - apply Forall_cons in Hall as [[Hid Hname] _]. cbn [Docker.ps_output].
    rewrite rstrip_app_space by reflexivity.
    rewrite (ps_line_rstrip c Hname).
    apply splitlines_single; [by apply ps_line_no_boundary|].
    by destruct (ps_line_head c Hid) as (d & r & -> & _).
  - apply Forall_cons in Hall as [[Hid Hname] Hrest].
    specialize (IH c2 Hrest).
    assert (Text.rstrip_by Text.isspace (Docker.ps_output (c2 :: rest))
            ≠ EmptyString) as Hne.
    { intros Hempty. by rewrite Hempty in IH. }
    change (Docker.ps_output (c :: c2 :: rest))
      with (Docker.ps_line c
            +:+ String Text.LF (Docker.ps_output (c2 :: rest))).
    rewrite rstrip_app_nonempty; rewrite rstrip_cons; try done.
    rewrite splitlines_line by (by apply ps_line_no_boundary).
    by rewrite IH.
Qed.

Lemma containers_loop_ps (containers acc : list container) :
  Forall Docker.clean containers →
  Docker.containers_loop (Docker.ps_line <$> containers) acc
  = Ok (acc ++ containers)%list.
Proof.
  intros Hall. revert acc.
  induction Hall as [|c rest [Hid Hname] _ IH]; intros acc.
  - cbn. by rewrite app_nil_r.
  - cbn [fmap list_fmap Docker.containers_loop].
    destruct (ps_line_head c Hid) as (d & r & Hline & _).
    assert (String.eqb (Docker.ps_line c) "" = false) as ->
      by by rewrite Hline.
    rewrite (ps_line_strip c Hid Hname), (ps_line_split1 c Hid Hname).
    rewrite IH, <- app_assoc. by destruct c.
Qed.

Lemma containers_of_ps_output (containers : list container) :
  Forall Docker.clean containers →
  Docker.containers_loop
    (Docker.splitlines (Text.strip (Docker.ps_output containers))) []
  = Ok containers.
Proof.
  intros Hall. destruct containers as [|c rest]; [done|].
  assert (Text.strip (Docker.ps_output (c :: rest))
          = Text.rstrip_by Text.isspace (Docker.ps_output (c :: rest)))
    as ->.
  { unfold Text.strip, Text.strip_by. f_equal.
    pose proof Hall as [[Hid _] _]%Forall_cons.
    destruct (ps_line_head c Hid) as (d & r & Hline & Hd).
    cbn [Docker.ps_output]. rewrite Hline, append_cons.
    by apply lstrip_fixed. }
  rewrite (ps_output_lines c rest Hall).
  by rewrite (containers_loop_ps (c :: rest) [] Hall).
Qed.

(** X7: [get_all_containers] reads back what [docker ps] prints: from the
    output of one line [id name] for each container, it returns these
    containers in their order, when every id is a token and every name is
    not empty, has no white space at its ends and no line boundary. *)
Theorem get_all_containers_ps_output (containers : list container) :
  Forall Docker.clean containers →
  Docker.get_all_containers (Docker.Completed (Docker.ps_output containers))
  = Docker.Returned containers.
Proof.
  intros Hall. unfold Docker.get_all_containers.
  by rewrite (containers_of_ps_output containers Hall).
Qed.

Lemma get_all_containers_ps_output_witness :
  Docker.get_all_containers (Docker.Completed (Docker.ps_output [web; db]))
  = Docker.Returned [web; db].
Proof.
  apply get_all_containers_ps_output.
  repeat constructor.
Defined.

(** What the loop makes of one line that is not empty. *)
Lemma line_parse (line cid name : string) :
  Docker.split1 (Text.strip line) = [cid; name] →
  Text.split line = cid :: Text.split name
  ∧ Text.starts_with_space name = false
  ∧ Text.rstrip_by Text.isspace name = name.
Proof.
  intros Hparts.
  assert (Text.rstrip_by Text.isspace (Text.strip line) = Text.strip line)
    as Hstable by apply rstrip_idem.
  rewrite <- (split_strip line).
  revert Hparts Hstable. generalize (Text.strip line). intros y.
  unfold Docker.split1. rewrite <- (split_lstrip y).
  destruct (lstrip_app y) as [spaces Hy].
  destruct (Text.lstrip_by Text.isspace y) as [|c r] eqn:Hbody; [done|].
  pose proof (lstrip_head _ _ _ _ Hbody) as Hc.
  rewrite (split_span c r Hc).
  pose proof (span_token_app (String c r)) as Happ.
  destruct (Docker.span_token (String c r)) as [token rest].
  cbn [fst snd] in *.
  destruct (lstrip_app rest) as [spaces' Hrest].
  rewrite <- (split_lstrip rest).
  destruct (Text.lstrip_by Text.isspace rest) as [|d t] eqn:Hname; [done|].
  intros [= <- <-] Hstable. split; [done|]. split.
  - cbn. by eapply lstrip_head.
  - apply (rstrip_suffix _ (spaces +:+ token +:+ spaces')); [|done].
    rewrite !append_assoc, <- Hrest, Happ, <- Hy. exact Hstable.
Qed.

Lemma line_parse_fails (line : string) :
  (length (Text.split line) < 2)%nat →
  ∀ cid name, Docker.split1 (Text.strip line) ≠ [cid; name].
Proof.
  intros Hlen cid name Hparts.
  apply line_parse in Hparts as [Hsplit [Hname _]].
  rewrite Hsplit in Hlen. cbn in Hlen.
  destruct (Text.split name) eqn:Hempty; [|cbn in Hlen; lia].
  apply lstrip_empty_split in Hempty.
  destruct name as [|d t]; [done|]. cbn in Hname, Hempty.
  by rewrite Hname in Hempty.
Qed.

Lemma line_parse_succeeds (line : string) :
  (2 <= length (Text.split line))%nat →
  ∃ cid name, Docker.split1 (Text.strip line) = [cid; name].
Proof.
  intros Hlen. pose proof (split1_split (Text.strip line)) as Hparts.
  rewrite split_strip in Hparts.
  destruct (Text.split line) as [|t [|t' ts]]; cbn in Hlen; try lia.
  destruct Hparts as (rest & -> & _). eauto.
Qed.

Lemma stated_cons (line : string) (lines : list string) :
  Docker.stated (line :: lines)
  = if String.eqb line "" then Docker.stated lines
    else line :: Docker.stated lines.
Proof.
  unfold Docker.stated. destruct (String.eqb_spec line "") as [->|Hne].
  - by rewrite filter_cons_False by (by intros ?).
  - by rewrite filter_cons_True.
Qed.

Lemma containers_loop_ok (lines : list string) (acc found : list container) :
  Docker.containers_loop lines acc = Ok found →
  ∃ new, found = (acc ++ new)%list
         ∧ Forall2 Docker.parsed (Docker.stated lines) new.
Proof.
  revert acc. induction lines as [|line rest IH]; intros acc.
  - intros [= <-]. exists []. by rewrite app_nil_r.
  - cbn [Docker.containers_loop]. rewrite stated_cons.
    destruct (String.eqb line ""); [apply IH|].
    destruct (Docker.split1 (Text.strip line)) as [|cid [|name [|]]] eqn:Hparts;
      try done.
    intros (new & -> & Hnew)%IH.
    exists ({| c_id := cid; c_name := name |} :: new).
    rewrite <- app_assoc. split; [done|].
    constructor; [|done]. by apply line_parse.
Qed.

Lemma containers_loop_returns (lines : list string) (acc : list container) :
  Forall (λ line, (2 <= length (Text.split line))%nat) (Docker.stated lines) →
  ∃ found, Docker.containers_loop lines acc = Ok found.
Proof.
  revert acc. induction lines as [|line rest IH]; intros acc; [by eexists|].
  rewrite stated_cons. cbn [Docker.containers_loop].
  destruct (String.eqb line ""); [apply IH|].
  intros [Hline Hrest]%Forall_cons.
  destruct (line_parse_succeeds line Hline) as (cid & name & ->).
  by apply IH.
Qed.

Lemma containers_loop_raises (lines : list string) (acc : list container) :
  Exists (λ line, (length (Text.split line) < 2)%nat) (Docker.stated lines) →
  Docker.containers_loop lines acc = Raise ValueError.
Proof.
  revert acc. induction lines as [|line rest IH]; intros acc.
  - by intros ?%Exists_nil.
  - rewrite stated_cons. cbn [Docker.containers_loop].
    destruct (String.eqb line ""); [apply IH|].
    intros [Hline|Hrest]%Exists_cons.
    + pose proof (line_parse_fails line Hline) as Hfails.
      destruct (Docker.split1 (Text.strip line)) as [|cid [|name [|]]];
        try done.
      by destruct (Hfails cid name).
    + destruct (Docker.split1 (Text.strip line)) as [|cid [|name [|]]];
        try done.
      by apply IH.
Qed.

(** X8: on a run of [docker ps] that exited with 0, [get_all_containers]
    returns when every line of the trimmed output that is not empty has
    two tokens or more, with one container for each such line; as soon as
    one of these lines has fewer, it raises [ValueError], which its handler
    does not catch. An empty output gives no container. *)
Theorem get_all_containers_outcome (stdout : string) :
  let lines := Docker.stated (Docker.splitlines (Text.strip stdout)) in
  (Forall (λ line, (2 <= length (Text.split line))%nat) lines →
   ∃ containers,
     Docker.get_all_containers (Docker.Completed stdout)
     = Docker.Returned containers
     ∧ length containers = length lines)
  ∧ (Exists (λ line, (length (Text.split line) < 2)%nat) lines →
     Docker.get_all_containers (Docker.Completed stdout)
     = Docker.Raised ValueError)
  ∧ (lines = [] →
     Docker.get_all_containers (Docker.Completed stdout)
     = Docker.Returned []).
Proof.
  cbv zeta. unfold Docker.get_all_containers.
  assert (Forall (λ line, (2 <= length (Text.split line))%nat)
            (Docker.stated (Docker.splitlines (Text.strip stdout))) →
          ∃ containers,
            Docker.containers_loop (Docker.splitlines (Text.strip stdout)) []
            = Ok containers
            ∧ length containers
              = length (Docker.stated (Docker.splitlines (Text.strip stdout))))
    as Hreturns.
  { intros Hall.
    destruct (containers_loop_returns _ [] Hall) as [found Hfound].
    exists found. split; [done|].
    apply containers_loop_ok in Hfound as (new & -> & Hnew).
    symmetry. by eapply Forall2_length. }
  split; [|split].
  - intros Hall. destruct (Hreturns Hall) as (found & -> & Hlen). eauto.
  - intros Hbad. by rewrite (containers_loop_raises _ [] Hbad).
  - intros Hnil. rewrite Hnil in Hreturns.
    destruct (Hreturns (Forall_nil_2 _)) as (found & -> & Hlen).
    by destruct found.
Qed.

(** X9: each container that [get_all_containers] returns comes from one
    line of the output, in the order of the lines: its id is the first
    token of the line, hence not empty and without white space, and its
    name holds the other tokens, is not empty and has no white space at
    its ends. *)
Theorem get_all_containers_parsed (stdout : string)
    (containers : list container) :
  Docker.get_all_containers (Docker.Completed stdout)
  = Docker.Returned containers →
  Forall2 Docker.parsed
    (Docker.stated (Docker.splitlines (Text.strip stdout))) containers
  ∧ Forall (λ c, Docker.clean_id (c_id c) = true
                 ∧ c_name c ≠ EmptyString
                 ∧ Text.strip (c_name c) = c_name c) containers.
Proof.
  unfold Docker.get_all_containers.
  destruct (Docker.containers_loop _ []) as [found|] eqn:Hloop; [|done].
  intros [= <-].
  apply containers_loop_ok in Hloop as (new & -> & Hnew). cbn.
  split; [done|].
  induction Hnew as [|line c lines cs (Hsplit & Hhead & Hstable) _ IH];
    constructor; [|done].
  pose proof (split_tokens_clean line) as Htokens.
  rewrite Hsplit in Htokens. apply Forall_cons in Htokens as [[Hne Hsp] _].
  split; [|split].
  - unfold Docker.clean_id. rewrite Hsp.
    by destruct (String.eqb_spec (c_id c) "").
  - by destruct (c_name c).
  - unfold Text.strip, Text.strip_by.
    destruct (c_name c) as [|d t]; [done|]. cbn in Hhead.
    by rewrite (lstrip_fixed _ d t Hhead).
Qed.

Lemma get_all_containers_parsed_witness :
  Forall (λ c, Docker.clean_id (c_id c) = true
               ∧ c_name c ≠ EmptyString
               ∧ Text.strip (c_name c) = c_name c)
    [{| c_id := "ab12"; c_name := "web server" |}].
Proof.
  apply (get_all_containers_parsed
           ("  ab12    web server  " +:+ nl +:+ nl)).
  reflexivity.
Defined.

(** ** The filter of [main] *)

Example lower_ex : Filter.lower "Web-01_DB" = "web-01_db".
Proof. reflexivity. Qed.
Example contains_ex1 : Filter.contains "b-0" "web-01" = true.
Proof. reflexivity. Qed.
Example contains_ex2 : Filter.contains "" "" = true.
Proof. reflexivity. Qed.
Example contains_ex3 : Filter.contains "web1" "web-01" = false.
Proof. reflexivity. Qed.
Example apply_filter_ex :
  Filter.apply_filter (Some "WEB") [db; web] = [web]
  ∧ Filter.apply_filter (Some "4D3E2F") [db; web] = [web]
  ∧ Filter.apply_filter (Some "") [db; web] = [db; web].
Proof. repeat split. Qed.

Lemma starts_with_spec (prefix s : string) :
  Filter.starts_with prefix s = true ↔ ∃ after, s = prefix +:+ after.
Proof.
  revert s. induction prefix as [|a p IH]; intros s.
  - cbn. split; [|done]. intros _. by exists s.
  - destruct s as [|b s]; cbn.
    + split; [done|]. by intros [after ?].
    + rewrite andb_true_iff, IH. split.
      * intros [->%Ascii.eqb_eq [after ->]]. by exists after.
      * intros [after [= -> ->]]. rewrite Ascii.eqb_refl. eauto.
Qed.

Lemma contains_spec (needle hay : string) :
  Filter.contains needle hay = true ↔ Filter.occurs needle hay.
Proof.
  unfold Filter.occurs. induction hay as [|c r IH].
  - cbn [Filter.contains]. rewrite starts_with_spec. split.
    + intros [after Hafter]. by exists EmptyString, after.
    + intros (before & after & Hhay).
      destruct before; [by exists after|done].
  - cbn [Filter.contains]. rewrite orb_true_iff, starts_with_spec, IH. split.
    + intros [[after Hafter]|(before & after & ->)].
      * by exists EmptyString, after.
      * by exists (String c before), after.
    + intros (before & after & Hhay). destruct before as [|d before].
      * left. by exists after.
      * right. rewrite append_cons in Hhay. injection Hhay as -> ->. eauto.
Qed.

Lemma lower_char_idem (c : ascii) :
  Filter.lower_char (Filter.lower_char c) = Filter.lower_char c.
Proof.
  destruct c as [[] [] [] [] [] [] [] []]; reflexivity.
Qed.

Lemma lower_idem (s : string) : Filter.lower (Filter.lower s) = Filter.lower s.
Proof.
  induction s as [|c r IH]; [done|]. cbn. by rewrite lower_char_idem, IH.
Qed.

Lemma lower_empty (s : string) :
  Filter.lower s = EmptyString ↔ s = EmptyString.
Proof. by destruct s. Qed.

Lemma filter_sublist (keep : container → bool) (containers : list container) :
  sublist (List.filter keep containers) containers.
Proof.
  induction containers as [|c rest IH]; [constructor|]. cbn.
  destruct (keep c); by constructor.
Qed.

Lemma filter_idem (keep : container → bool) (containers : list container) :
  List.filter keep (List.filter keep containers) = List.filter keep containers.
Proof.
  induction containers as [|c rest IH]; [done|]. cbn.
  destruct (keep c) eqn:Hc; [|done]. cbn. by rewrite Hc, IH.
Qed.

(** X10: the filter of [main] keeps the containers in their order and adds
    none; without a filter, or with the empty one, it keeps them all, and
    otherwise it keeps exactly those in whose lowercased name or lowercased
    full id the lowercased filter occurs. *)
Theorem apply_filter_spec (filter_str : option string)
    (containers : list container) :
  sublist (Filter.apply_filter filter_str containers) containers
  ∧ (filter_str = None ∨ filter_str = Some EmptyString →
     Filter.apply_filter filter_str containers = containers)
  ∧ (∀ f c, filter_str = Some f → f ≠ EmptyString →
       (c ∈ Filter.apply_filter filter_str containers
        ↔ c ∈ containers
          ∧ (Filter.occurs (Filter.lower f) (Filter.lower (c_name c))
             ∨ Filter.occurs (Filter.lower f) (Filter.lower (c_id c))))).
Proof.
  split; [|split].
  - destruct filter_str as [[|a f]|]; cbn; try done. apply filter_sublist.
  - by intros [->| ->].
  - intros f c -> Hf. destruct f as [|a f]; [done|].
    cbn [Filter.apply_filter].
    rewrite !list_elem_of_In, List.filter_In. unfold Filter.matches.
    by rewrite orb_true_iff, !contains_spec.
Qed.

(** X11: the filter does not look at the case of letters: two filters
    with one lowercase form keep the same containers, and so do a filter
    and its lowercase form; filtering twice changes nothing more. *)
Theorem apply_filter_case (f g : string) (containers : list container) :
  Filter.lower f = Filter.lower g →
  Filter.apply_filter (Some f) containers
  = Filter.apply_filter (Some g) containers
  ∧ Filter.apply_filter (Some (Filter.lower f)) containers
    = Filter.apply_filter (Some f) containers
  ∧ Filter.apply_filter (Some f)
      (Filter.apply_filter (Some f) containers)
    = Filter.apply_filter (Some f) containers.
Proof.
  intros Hfg.
  assert (∀ a b, Filter.lower a = Filter.lower b →
                 Filter.apply_filter (Some a) containers
                 = Filter.apply_filter (Some b) containers) as Hsame.
  { intros a b Hab. destruct a as [|x a], b as [|y b]; try done.
    cbn [Filter.apply_filter]. unfold Filter.matches.
    apply List.filter_ext. intros c. by rewrite Hab. }
  split; [by apply Hsame|]. split.
  - apply Hsame, lower_idem.
  - destruct f as [|x f]; [done|]. apply filter_idem.
Qed.

Lemma apply_filter_case_witness :
  Filter.apply_filter (Some "WeB") [db; web]
  = Filter.apply_filter (Some "wEb") [db; web].
Proof.
  apply (apply_filter_case "WeB" "wEb" [db; web]). reflexivity.
Defined.

(** ** Colours and names of the table *)

Lemma string_length_app (a b : string) :
  String.length (a +:+ b) = (String.length a + String.length b)%nat.
Proof.
  induction a as [|c a IH]; [done|]. rewrite append_cons. cbn. by rewrite IH.
Qed.

(** X12: [colorize_value] only wraps the text: it returns it as it is, or
    between the red code and the reset code, or between the yellow code and
    the reset code. Red is for a raw value at or above [crit], yellow for
    one below [crit] and at or above [warn], so that no text is yellow when
    [crit <= warn]; an absent raw value and the text N/A are never
    coloured. *)
Theorem colorize_value_spec (value : string) (raw : option Z) (warn crit : Z) :
  let out := colorize_value value raw warn crit in
  (out = value ∨ out = RED +:+ value +:+ RESET
   ∨ out = YELLOW +:+ value +:+ RESET)
  ∧ (out = RED +:+ value +:+ RESET
     ↔ ∃ r, raw = Some r ∧ value ≠ "N/A" ∧ crit <= r)
  ∧ (out = YELLOW +:+ value +:+ RESET
     ↔ ∃ r, raw = Some r ∧ value ≠ "N/A" ∧ warn <= r < crit)
  ∧ (crit <= warn → out ≠ YELLOW +:+ value +:+ RESET).
Proof.
  cbv zeta.
  assert (∀ code, code = RED ∨ code = YELLOW →
                  value ≠ code +:+ value +:+ RESET) as Hwrap.
  { intros code Hcode Heq.
    apply (f_equal String.length) in Heq.
    rewrite !string_length_app in Heq.
    destruct Hcode as [-> | ->]; cbn in Heq; lia. }
  assert (RED +:+ value +:+ RESET ≠ YELLOW +:+ value +:+ RESET) as Hry
    by (intros [=]).
  pose proof (Hwrap RED (or_introl eq_refl)) as Hred.
  pose proof (Hwrap YELLOW (or_intror eq_refl)) as Hyellow.
  assert (∀ P : Prop, value = RED +:+ value +:+ RESET → P) as Hred'
    by (intros P Heq; destruct (Hred Heq)).
  assert (∀ P : Prop, value = YELLOW +:+ value +:+ RESET → P) as Hyellow'
    by (intros P Heq; destruct (Hyellow Heq)).
  unfold colorize_value.
  destruct raw as [r|];
    [destruct (String.eqb_spec value "N/A") as [Hna|Hna];
     [|destruct (Z.leb_spec crit r); [|destruct (Z.leb_spec warn r)]]|].
  - (* the text N/A *)
    split; [by left|]. split; [|split].
    + split; [apply Hred'|]. by intros (r' & _ & Hne & _).
    + split; [apply Hyellow'|]. by intros (r' & _ & Hne & _).
    + intros _. exact Hyellow.
  - (* red *)
    split; [by right; left|]. split; [|split].
    + split; [|done]. intros _. by exists r.
    + split; [intros Heq; destruct (Hry Heq)|].
      intros (r' & [= <-] & _ & Hr). lia.
    + intros _ Heq. destruct (Hry Heq).
  - (* yellow *)
    split; [by right; right|]. split; [|split].
    + split; [intros Heq; symmetry in Heq; destruct (Hry Heq)|].
      intros (r' & [= <-] & _ & Hr). lia.
    + split; [|done]. intros _. exists r. repeat split; done.
    + intros Hle. lia.
  - (* below both thresholds *)
    split; [by left|]. split; [|split].
    + split; [apply Hred'|]. intros (r' & [= <-] & _ & Hr). lia.
    + split; [apply Hyellow'|]. intros (r' & [= <-] & _ & Hr). lia.
    + intros _. exact Hyellow.
  - (* no raw value *)
    split; [by left|]. split; [|split].
    + split; [apply Hred'|]. by intros (r' & Hr & _).
    + split; [apply Hyellow'|]. by intros (r' & Hr & _).
    + intros _. exact Hyellow.
Qed.

(** The length of a slice to a stop that is not negative. *)
Lemma slice_to_length {A : Type} (stop : Z) (l : list A) :
  0 <= stop → length (slice_to stop l) = Nat.min (Z.to_nat stop) (length l).
Proof.
  intros Hstop. unfold slice_to. cbv zeta.
  destruct (Z.ltb_spec stop 0); [lia|].
  rewrite length_take. lia.
Qed.

(** X13: [truncate_name] returns a name of at most [width] characters as
    it is. For a longer name and a width of 1 or more it returns the first
    [width - 1] characters and an ellipsis, [width] characters in all; so
    for a width of 1 or more the result never has more than [width]
    characters. With the width 0 the slice counts from the end: a name
    that is not empty loses its last character, gets the ellipsis and
    keeps its length. *)
Theorem truncate_name_spec (name : list N) (width : Z) :
  (Z.of_nat (length name) <= width → truncate_name name width = name)
  ∧ (1 <= width < Z.of_nat (length name) →
     truncate_name name width
     = (take (Z.to_nat (width - 1)) name ++ [ELLIPSIS])%list
     ∧ Z.of_nat (length (truncate_name name width)) = width)
  ∧ (1 <= width →
     Z.of_nat (length (truncate_name name width))
     = Z.min (Z.of_nat (length name)) width)
  ∧ (width = 0 → name ≠ [] →
     truncate_name name width
     = (take (length name - 1) name ++ [ELLIPSIS])%list
     ∧ length (truncate_name name width) = length name).
Proof.
  assert (1 <= width < Z.of_nat (length name) →
          truncate_name name width
          = (take (Z.to_nat (width - 1)) name ++ [ELLIPSIS])%list
          ∧ Z.of_nat (length (truncate_name name width)) = width) as Hcut.
  { intros Hwidth. unfold truncate_name.
    destruct (Z.ltb_spec width (Z.of_nat (length name))); [|lia].
    assert (slice_to (width - 1) name = take (Z.to_nat (width - 1)) name)
      as ->.
    { unfold slice_to. cbv zeta.
      destruct (Z.ltb_spec (width - 1) 0); [lia|]. f_equal. lia. }
    split; [done|]. rewrite length_app, length_take. cbn. lia. }
  split; [|split; [|split]].
  - intros Hfits. unfold truncate_name.
    by destruct (Z.ltb_spec width (Z.of_nat (length name))); [lia|].
  - exact Hcut.
  - intros Hwidth.
    destruct (Z.lt_ge_cases width (Z.of_nat (length name))) as [Hlong|Hfits].
    + destruct Hcut as [_ ->]; lia.
    + unfold truncate_name.
      destruct (Z.ltb_spec width (Z.of_nat (length name))); lia.
  - intros -> Hname. unfold truncate_name.
    assert (0 < length name)%nat as Hlen by (destruct name; cbn; [done|lia]).
    destruct (Z.ltb_spec 0 (Z.of_nat (length name))); [|lia].
    assert (slice_to (0 - 1) name = take (length name - 1) name) as ->.
    { unfold slice_to. cbv zeta.
      destruct (Z.ltb_spec (0 - 1) 0); [|lia]. f_equal. lia. }
    split; [done|]. rewrite length_app, length_take. cbn. lia.
Qed.

Example truncate_name_ex :
  truncate_name [97; 98; 99; 100; 101]%N 3 = [97; 98; ELLIPSIS]%N
  ∧ truncate_name [97; 98; 99]%N 3 = [97; 98; 99]%N
  ∧ truncate_name [97; 98; 99]%N 0 = [97; 98; ELLIPSIS]%N.
Proof. repeat split. Qed.

(** ** The text of [format_bytes] *)

Example format_bytes_ex :
  format_bytes Float.render_bytes <$> [None; Some 0; Some 1023; Some 1024;
    Some 1536; Some 1048575; Some 1048576; Some 104857600; Some (-5);
    Some (2 ^ 64); Some 1280; Some 1125899906842624]
  = Ok <$> ["N/A"; "0.0 B"; "1023.0 B"; "1.0 KB"; "1.5 KB"; "1024.0 KB";
            "1.0 MB"; "100.0 MB"; "-5.0 B"; "16384.0 PB"; "1.2 KB";
            "1.0 PB"].
Proof. vm_compute. reflexivity. Qed.

Lemma round53_small (n : Z) : Z.abs n < 2 ^ 53 → Float.round53 n = n.
Proof.
  intros Hn. unfold Float.round53. cbv zeta.
  destruct (Z.leb_spec (Z.log2 (Z.abs n) + 1) 53) as [|Hbits]; [done|].
  exfalso. destruct (Z.eq_dec (Z.abs n) 0) as [Hz|Hnz].
  - rewrite Hz in Hbits. cbn in Hbits. lia.
  - assert (Z.log2 (Z.abs n) < 53); [|lia].
    apply Z.log2_lt_pow2; lia.
Qed.

Lemma round53_large (n : Z) : 2 ^ 53 <= n → 2 ^ 53 <= Float.round53 n.
Proof.
  intros Hn. unfold Float.round53. cbv zeta.
  destruct (Z.leb_spec (Z.log2 (Z.abs n) + 1) 53) as [|Hbits]; [done|].
  rewrite (Z.abs_eq n), (Z.sgn_pos n) in * by lia.
  set (e := Z.log2 n + 1 - 53) in *.
  assert (1 <= e) as He by lia.
  destruct (Z.log2_spec n) as [Hlow _]; [lia|].
  replace (Z.log2 n) with (52 + e) in Hlow by lia.
  rewrite Z.pow_add_r in Hlow by lia.
  assert (2 <= 2 ^ e) as Hpow.
  { change 2 with (2 ^ 1) at 1. apply Z.pow_le_mono_r; lia. }
  assert (2 ^ 52 <= n / 2 ^ e) as Hq.
  { apply Z.div_le_lower_bound; lia. }
  set (q := n / 2 ^ e) in *.
  assert (q <= (if (2 ^ (e - 1) <? n mod 2 ^ e)
                   || ((n mod 2 ^ e =? 2 ^ (e - 1)) && Z.odd q)
                then q + 1 else q)) as Hq'
    by (destruct (_ || _); lia).
  revert Hq'. generalize (if (2 ^ (e - 1) <? n mod 2 ^ e)
                             || ((n mod 2 ^ e =? 2 ^ (e - 1)) && Z.odd q)
                          then q + 1 else q).
  intros q' Hq'. change (2 ^ 53) with (2 ^ 52 * 2). rewrite Z.mul_1_l.
  apply Z.mul_le_mono_nonneg; lia.
Qed.

(** Below [2^53] a comparison of the float is the comparison of the
    integer. *)
Lemma round53_ltb (v t : Z) :
  t <= 2 ^ 53 → 0 <= v → (Float.round53 v <? t) = (v <? t).
Proof.
  intros Ht Hv. destruct (Z.lt_ge_cases v (2 ^ 53)) as [Hsmall|Hlarge].
  - rewrite round53_small; [done|]. rewrite Z.abs_eq; lia.
  - pose proof (round53_large v Hlarge).
    destruct (Z.ltb_spec (Float.round53 v) t), (Z.ltb_spec v t); lia.
Qed.

(** The decimal digits of an integer are a numeral of that integer. *)
Lemma digit_char_digit (d : Z) :
  0 <= d < 10 →
  Spec.is_digit (Float.digit_char d) = true
  ∧ Text.code (Float.digit_char d) - 48 = d.
Proof.
  intros Hd. unfold Spec.is_digit, Text.code, Float.digit_char.
  rewrite N_ascii_embedding by lia. rewrite Z2N.id by lia.
  split; [|lia]. apply andb_true_iff. split; apply Z.leb_le; lia.
Qed.

Lemma decimal_go_spec (fuel : nat) (n : Z) (acc : string) :
  0 <= n < 10 ^ Z.of_nat fuel → (0 < fuel)%nat →
  Spec.all_digits acc = true →
  Spec.all_digits (Float.decimal_go fuel n acc) = true
  ∧ Float.decimal_go fuel n acc ≠ EmptyString
  ∧ Spec.numeral_value (Float.decimal_go fuel n acc)
    = n * 10 ^ Z.of_nat (String.length acc) + Spec.numeral_value acc.
Proof.
  revert n acc. induction fuel as [|fuel IH]; intros n acc Hn Hfuel Hacc;
    [lia|].
  cbn [Float.decimal_go].
  destruct (digit_char_digit (n mod 10)) as [Hdigit Hcode].
  { apply Z.mod_pos_bound. lia. }
  assert (Spec.all_digits (String (Float.digit_char (n mod 10)) acc) = true)
    as Hacc' by (cbn; by rewrite Hdigit, Hacc).
  assert (Spec.numeral_value (String (Float.digit_char (n mod 10)) acc)
          = n mod 10 * 10 ^ Z.of_nat (String.length acc)
            + Spec.numeral_value acc) as Hvalue
    by (cbn [Spec.numeral_value]; by rewrite Hcode).
  destruct (Z.ltb_spec n 10) as [Hsmall|Hlarge].
  - split; [done|]. split; [done|].
    rewrite Hvalue, Z.mod_small by lia. done.
  - destruct fuel as [|fuel]; [cbn in Hn; lia|].
    destruct (IH (n / 10) (String (Float.digit_char (n mod 10)) acc))
      as (Hall & Hne & Hgo); [|lia|done|].
    + split; [apply Z.div_pos; lia|].
      apply Z.div_lt_upper_bound; [lia|].
      rewrite Nat2Z.inj_succ, Z.pow_succ_r in Hn by lia. lia.
    + split; [done|]. split; [done|].
      rewrite Hgo, Hvalue. cbn [String.length].
      rewrite Nat2Z.inj_succ, Z.pow_succ_r by lia.
      pose proof (Z.div_mod n 10). lia.
Qed.

Lemma decimal_numeral (n : Z) :
  0 <= n →
  Spec.is_numeral (Float.decimal n) = true
  ∧ Spec.numeral_value (Float.decimal n) = n.
Proof.
  intros Hn. unfold Float.decimal.
  destruct (decimal_go_spec (S (Z.to_nat (Z.log2 n))) n EmptyString)
    as (Hall & Hne & Hvalue); [|lia|done|].
  - split; [done|].
    rewrite Nat2Z.inj_succ, Z2Nat.id by apply Z.log2_nonneg.
    destruct (Z.eq_dec n 0) as [->|Hnz]; [done|].
    destruct (Z.log2_spec n) as [_ Hup]; [lia|].
    apply (Z.lt_le_trans _ _ _ Hup).
    apply Z.pow_le_mono_l. lia.
  - split.
    + by destruct (Float.decimal_go _ n EmptyString).
    + rewrite Hvalue. cbn. lia.
Qed.

Lemma tenths_exact (m : Z) : Float.tenths m 0 = 10 * Z.abs m.
Proof.
  unfold Float.tenths. cbv zeta. change (2 ^ 0) with 1.
  rewrite Z.mod_1_r, Z.div_1_r. done.
Qed.


Lemma float_bound_above_53 : 2 ^ 53 < float_bound.
Proof. reflexivity. Qed.

Section RenderBytes.
Variable value : Z.

(** The unit and the number of [render_bytes]. *)
Lemma render_bytes_scale :
  Float.render_bytes value
  = Float.fmt_1f (Float.round53 value) (Float.scale value).1
    +:+ " " +:+ (Float.scale value).2.
Proof.
  unfold Float.render_bytes, Float.scale.
  cbn [Float.units_loop Float.lt_1024 Float.div_1024 Float.fmt].
  destruct (Z.ltb_spec value 1024) as [|Hv]; [done|].
  change (1024 * 2 ^ 10) with (1024 ^ 2).
  change (1024 * 2 ^ (10 + 10)) with (1024 ^ 3).
  change (1024 * 2 ^ (10 + 10 + 10)) with (1024 ^ 4).
  change (1024 * 2 ^ (10 + 10 + 10 + 10)) with (1024 ^ 5).
  rewrite !round53_ltb by lia.
  repeat (destruct (_ <? _); [done|]). done.
Qed.

(** X14: where it does not overflow, [format_bytes] prints the unit that
    the powers of 1024 give for the integer itself, whatever the rounding
    of the floats: B below 1024, then KB, MB, GB and TB, and PB from
    [1024^5] on. The number before the unit is the float nearest to the
    integer, divided by the power of 1024 of the unit and printed with
    one decimal. *)
Theorem format_bytes_unit :
  - float_bound < value < float_bound * 1024 →
  format_bytes Float.render_bytes (Some value)
  = Ok (Float.fmt_1f (Float.round53 value) (Float.scale value).1
        +:+ " " +:+ (Float.scale value).2).
Proof.
  intros Hrange%scalable_range.
  rewrite (format_bytes_ok Float.render_bytes _ Hrange).
  cbn [bytes_text]. by rewrite render_bytes_scale.
Qed.

(** X15: an integer below 1024 and above [-2^53] is printed as it is:
    its sign, its decimal digits, which [int] reads back as its magnitude,
    and [.0 B]. *)
Theorem format_bytes_small :
  - 2 ^ 53 < value < 1024 →
  format_bytes Float.render_bytes (Some value)
  = Ok (((if value <? 0 then "-" else "")
         +:+ Float.decimal (Z.abs value) +:+ ".0") +:+ " B")
  ∧ PyInt.int (Float.decimal (Z.abs value)) = Ok (Z.abs value).
Proof.
  intros Hvalue. split.
  - assert (Spec.scalable (Some value) = true) as Hrange.
    { apply scalable_range. pose proof float_bound_above_53 as Hb.
      revert Hb. generalize float_bound. intros bound Hb. lia. }
    rewrite (format_bytes_ok Float.render_bytes _ Hrange).
    cbn [bytes_text]. rewrite render_bytes_scale. unfold Float.scale.
    destruct (Z.ltb_spec value 1024) as [_|]; [|lia]. cbn [fst snd].
    rewrite round53_small by lia.
    unfold Float.fmt_1f. cbv zeta. rewrite tenths_exact.
    rewrite (Z.mul_comm 10), Z.div_mul, Z.mod_mul by lia.
    reflexivity.
  - destruct (decimal_numeral (Z.abs value)) as [Hnum Hval]; [lia|].
    by rewrite (int_of_numeral _ Hnum), Hval.
Qed.

End RenderBytes.

Lemma format_bytes_unit_witness :
  format_bytes Float.render_bytes (Some 1048575) = Ok "1024.0 KB".
Proof.
  apply (format_bytes_unit 1048575). split; reflexivity.
Defined.

Lemma format_bytes_small_witness :
  format_bytes Float.render_bytes (Some (-5)) = Ok "-5.0 B".
Proof.
  apply (format_bytes_small (-5)). lia.
Defined.


(** ** [main], from the check of the dependencies to the rows *)

Lemma filter_Forall (P : container → Prop) (keep : container → bool)
    (containers : list container) :
  Forall P containers → Forall P (List.filter keep containers).
Proof.
  induction 1 as [|c rest Hc _ IH]; [constructor|]. cbn.
  destruct (keep c); [by constructor|done].
Qed.

(** X17: from the lines that [docker ps] prints for containers with clean
    ids and names, on a host whose readable files hold unsigned 64-bit
    counters only, [main] builds exactly one row for each container that
    passes the filter, in the order of [docker ps], with the name of the
    container and the first twelve characters of its id. *)
Theorem main_collect_rows (render : Z → string) (fs : filesystem)
    (details : bool) (filter_str : option string)
    (containers : list container) :
  Forall Docker.clean containers →
  counters64 fs →
  ∃ rows,
    main_collect render fs
      (Some (Docker.Completed (Docker.ps_output containers)))
      details filter_str
    = Docker.Returned rows
    ∧ Forall2 Spec.tagged (Filter.apply_filter filter_str containers) rows.
Proof.
  intros Hclean Hfs. unfold main_collect, Docker.get_all_containers.
  rewrite (containers_of_ps_output containers Hclean).
  destruct (rows_loop_ok render fs details (get_cgroup_version fs)
              (Filter.apply_filter filter_str containers) [])
    as (rows & -> & Hrows).
  - apply Forall_forall. intros c _. by apply counters64_renderable.
  - exists rows. split; [done|].
    eapply Forall2_impl; [exact Hrows|]. by intros c row [Htag _].
Qed.

Lemma main_collect_rows_witness :
  ∃ rows,
    main_collect Float.render_bytes fs_v1
      (Some (Docker.Completed (Docker.ps_output [db; web])))
      true (Some "WEB")
    = Docker.Returned rows
    ∧ Forall2 Spec.tagged [web] rows.
Proof.
  apply (main_collect_rows Float.render_bytes fs_v1 true (Some "WEB")
           [db; web]).
  - repeat constructor.
  - exact fs_v1_counters64.
Defined.
